(** * beancount.query.query_render: column renderers and text tables

    A shallow embedding of [src/python/beancount/query/query_render.py]
    and the properties of its column renderers and of [render_text].

    Python values are embedded as follows.
    - [str] is a list of characters; [len] is [length].
    - [int] is [Z]; a count that Python uses as a repetition factor or as a
      field width goes through [Z.to_nat] (Python's [' ' * n] is empty for
      [n <= 0]).
    - an exception is a value of [exn]; a call that may raise returns a
      [result].
    - [decimal.Decimal] is its [as_tuple()]: sign, digits, exponent. Only
      finite numbers are embedded: [DecimalRenderer.update] raises on NaN and
      on infinities ([min] of an int and a str).
    - format strings are templates, lists of literal pieces and replacement
      fields, built by the same steps as the source builds their text. *)

From Stdlib Require Import String Ascii ZArith Bool Lia List Permutation.
Import ListNotations.

Local Open Scope Z_scope.

(** ** Python strings *)

Module Py.

Definition str := list ascii.

(** A string literal of the source. *)
Definition lit (s : string) : str := list_ascii_of_string s.

(** [c * n] for a one-character string [c]. *)
Definition times (c : ascii) (n : nat) : str := repeat c n.

Definition spaces (n : nat) : str := times " "%char n.

(** [format(s, '<w')], also the default alignment of a str: [s] followed by
    the fill needed to reach [w] characters; never truncates. *)
Definition ljust (w : nat) (s : str) : str := s ++ spaces (w - length s).

(** [format(s, '>w')]: the default alignment of a number. *)
Definition rjust (w : nat) (s : str) : str := spaces (w - length s) ++ s.

(** [sep.join(parts)]. *)
Fixpoint join (sep : str) (parts : list str) : str :=
  match parts with
  | [] => []
  | [p] => p
  | p :: rest => p ++ sep ++ join sep rest
  end.

(** The exceptions the module can raise. *)
Inductive exn :=
| AssertionError
| AttributeError
| TypeError
| ValueError
| IndexError.

Inductive result (A : Type) :=
| Ok (a : A)
| Raise (e : exn).
Arguments Ok {A} a.
Arguments Raise {A} e.

Definition bind {A B} (r : result A) (k : A -> result B) : result B :=
  match r with
  | Ok a => k a
  | Raise e => Raise e
  end.

End Py.

Import Py.

Notation "x <- r ;; k" := (bind r (fun x => k))
  (at level 61, r at next level, right associativity).

(** ** decimal.Decimal *)

Inductive digit := D0 | D1 | D2 | D3 | D4 | D5 | D6 | D7 | D8 | D9.

Definition digit_val (d : digit) : Z :=
  match d with
  | D0 => 0 | D1 => 1 | D2 => 2 | D3 => 3 | D4 => 4
  | D5 => 5 | D6 => 6 | D7 => 7 | D8 => 8 | D9 => 9
  end.

Definition digit_char (d : digit) : ascii :=
  match d with
  | D0 => "0" | D1 => "1" | D2 => "2" | D3 => "3" | D4 => "4"
  | D5 => "5" | D6 => "6" | D7 => "7" | D8 => "8" | D9 => "9"
  end%char.

Definition char_digit (c : ascii) : option digit :=
  (if Ascii.eqb c "0" then Some D0 else
   if Ascii.eqb c "1" then Some D1 else
   if Ascii.eqb c "2" then Some D2 else
   if Ascii.eqb c "3" then Some D3 else
   if Ascii.eqb c "4" then Some D4 else
   if Ascii.eqb c "5" then Some D5 else
   if Ascii.eqb c "6" then Some D6 else
   if Ascii.eqb c "7" then Some D7 else
   if Ascii.eqb c "8" then Some D8 else
   if Ascii.eqb c "9" then Some D9 else None)%char.

Definition is_D0 (d : digit) : bool :=
  match d with D0 => true | _ => false end.

(** [number.as_tuple()]: [DecimalTuple(sign, digits, exponent)]. The
    coefficient is kept as its digit string, the way [Decimal] stores it in
    [_int]. *)
Record Decimal := mkDecimal {
  sign : bool;
  digits : list digit;
  exponent : Z
}.

(** The digit string of a [Decimal] is never empty and has no leading zero,
    except for the coefficient zero, which is the single digit 0. *)
Definition wf_digits (ds : list digit) : Prop :=
  match ds with
  | [] => False
  | [_] => True
  | d :: _ => d <> D0
  end.

Definition wf_decimal (d : Decimal) : Prop := wf_digits (digits d).

(** [int(s)] for a digit string. *)
Definition coeff (ds : list digit) : Z :=
  fold_left (fun acc d => 10 * acc + digit_val d) ds 0.

(** The coefficient with its sign. *)
Definition signed_coeff (d : Decimal) : Z :=
  if sign d then - coeff (digits d) else coeff (digits d).

(** [a == b] on decimals compares the numbers: both coefficients are brought
    to the smaller exponent. [Decimal('-0') == Decimal('0')]. *)
Definition dec_eq (a b : Decimal) : Prop :=
  let m := Z.min (exponent a) (exponent b) in
  signed_coeff a * 10 ^ (exponent a - m) = signed_coeff b * 10 ^ (exponent b - m).

(** [number.adjusted()]: the exponent of the most significant digit. *)
Definition adjusted (d : Decimal) : Z :=
  exponent d + Z.of_nat (length (digits d)) - 1.

(** [not self]: the coefficient is zero. *)
Definition dec_is_zero (d : Decimal) : bool := forallb is_D0 (digits d).

Definition zeros (n : nat) : list digit := repeat D0 n.

(** [str(int(ds))] on a digit string: leading zeros go, one digit stays. *)
Fixpoint strip_zeros (ds : list digit) : list digit :=
  match ds with
  | D0 :: (_ :: _) as rest => strip_zeros rest
  | _ => ds
  end.

(** [str(int(ds) + 1)] for a digit string read from its last digit:
    [incr_rev] works on the reversed string. *)
Fixpoint incr_rev (rds : list digit) : list digit :=
  match rds with
  | [] => [D1]
  | D0 :: r => D1 :: r
  | D1 :: r => D2 :: r
  | D2 :: r => D3 :: r
  | D3 :: r => D4 :: r
  | D4 :: r => D5 :: r
  | D5 :: r => D6 :: r
  | D6 :: r => D7 :: r
  | D7 :: r => D8 :: r
  | D8 :: r => D9 :: r
  | D9 :: r => D0 :: incr_rev r
  end.

Definition incr_digits (ds : list digit) : list digit :=
  strip_zeros (rev (incr_rev (rev ds))).

(** [Decimal._round_half_even(prec)]: [true] when the first [prec] digits
    are to be incremented. [ds] has more than [prec] digits. *)
Definition round_half_even (ds : list digit) (prec : nat) : bool :=
  let rest := skipn prec ds in
  let exact_half :=
    match rest with
    | D5 :: tl => forallb is_D0 tl
    | _ => false
    end in
  let last_even :=
    match prec with
    | O => true
    | S p => match nth_error ds p with
             | Some (D0 | D2 | D4 | D6 | D8) => true
             | _ => false
             end
    end in
  if exact_half && last_even then false
  else match rest with
       | (D5 | D6 | D7 | D8 | D9) :: _ => true
       | _ => false
       end.

(** [Decimal._rescale(exp, ROUND_HALF_EVEN)]: the same number with exponent
    [exp]; zeros are appended when [exp] is not above the number's exponent,
    digits are rounded away otherwise. *)
Definition rescale (d : Decimal) (exp : Z) : Decimal :=
  if dec_is_zero d then mkDecimal (sign d) [D0] exp
  else if exp <=? exponent d then
    mkDecimal (sign d) (digits d ++ zeros (Z.to_nat (exponent d - exp))) exp
  else
    let keep := Z.of_nat (length (digits d)) + exponent d - exp in
    let '(ds, n) := if keep <? 0 then ([D1], O) else (digits d, Z.to_nat keep) in
    let kept := match firstn n ds with [] => [D0] | l => l end in
    mkDecimal (sign d)
              (if round_half_even ds n then incr_digits kept else kept)
              exp.

(** The digits before and after the decimal point of a number in
    fixed-point notation, as [Decimal.__format__] places them. *)
Definition fixed_parts (d : Decimal) : list digit * list digit :=
  let n := length (digits d) in
  let dotplace := exponent d + Z.of_nat n in
  if dotplace <? 0 then
    ([D0], zeros (Z.to_nat (- dotplace)) ++ digits d)
  else if Z.of_nat n <? dotplace then
    (digits d ++ zeros (Z.to_nat (dotplace - Z.of_nat n)), [])
  else
    (match firstn (Z.to_nat dotplace) (digits d) with [] => [D0] | l => l end,
     skipn (Z.to_nat dotplace) (digits d)).

Definition digits_str (ds : list digit) : str := map digit_char ds.

(** [format(d, '{sign}{width}.{precision}f')] where [sign] is [' '] when
    [space_sign] and absent otherwise: round to [precision] fractional
    digits, lay out sign, integer part, point and fraction, and right-align
    in [width] characters. *)
Definition format_f (space_sign : bool) (width precision : nat) (d : Decimal) : str :=
  let d1 := rescale d (- Z.of_nat precision) in
  let d2 := if dec_is_zero d1 && (0 <? exponent d1) then rescale d1 0 else d1 in
  let '(intpart, fracpart) := fixed_parts d2 in
  let sgn := if sign d2 then lit "-" else if space_sign then lit " " else [] in
  let frac := match fracpart with [] => [] | _ => lit "." ++ digits_str fracpart end in
  rjust width (sgn ++ digits_str intpart ++ frac).

(** ** Format strings

    A format string with automatic field numbering is a list of pieces:
    literal text (where [{{] and [}}] have become braces) and replacement
    fields [{:w}] or [{:<w.p}]. Applied to str arguments both left-align in
    [w] characters; the precision [p] truncates first. The width 0 pads
    nothing, as CPython takes it from version 3.10 on. *)

Inductive piece :=
| Lit (s : str)
| Field (width : nat) (precision : option nat).

Definition template := list piece.

(** What a renderer's [format] returns: a string, or a list of strings. *)
Inductive cell :=
| Line (s : str)
| Lines (l : list str).

Definition format_field (width : nat) (precision : option nat) (s : str) : str :=
  ljust width (match precision with Some p => firstn p s | None => s end).

(** [fmt.format( *args )]: fields take the arguments from left to right;
    a field without an argument raises [IndexError], a list or tuple given
    to a field with a format spec raises [TypeError], arguments left over
    are ignored. *)
Fixpoint tformat (fmt : template) (args : list cell) : result str :=
  match fmt with
  | [] => Ok []
  | Lit s :: fmt' =>
      rest <- tformat fmt' args ;; Ok (s ++ rest)
  | Field w p :: fmt' =>
      match args with
      | [] => Raise IndexError
      | Lines _ :: _ => Raise TypeError
      | Line s :: args' =>
          rest <- tformat fmt' args' ;; Ok (format_field w p s ++ rest)
      end
  end.

(** ** The data model of the columns *)

(** [datetime.date]: the year is between 1 and 9999. [%Y] is the year
    with century in four digits, [%m] and [%d] are two digits each, as the
    documentation of [strftime] gives them. *)
Record Date := mkDate { year : nat; month : nat; day : nat }.

Definition digit_of_nat (n : nat) : digit :=
  match (n mod 10)%nat with
  | 0 => D0 | 1 => D1 | 2 => D2 | 3 => D3 | 4 => D4
  | 5 => D5 | 6 => D6 | 7 => D7 | 8 => D8 | _ => D9
  end%nat.

Definition zfill2 (n : nat) : str :=
  digits_str [digit_of_nat (n / 10); digit_of_nat n].

Definition zfill4 (n : nat) : str :=
  digits_str [digit_of_nat (n / 1000); digit_of_nat (n / 100);
              digit_of_nat (n / 10); digit_of_nat n].

(** [dtime.strftime('%Y-%m-%d')]. *)
Definition strftime_ymd (d : Date) : str :=
  zfill4 (year d) ++ lit "-" ++ zfill2 (month d) ++ lit "-" ++ zfill2 (day d).

(** Modelled from the spec: [amount.Amount], declared outside this module.
    A cost is "itself a decimal amount + currency label". *)
Record Amount := mkAmount { a_number : Decimal; a_currency : str }.

(** Modelled from the spec: [position.Lot], declared outside this module.
    The renderers read [lot.currency] and [lot.cost]; the cost is optional,
    and [if cost] is taken as the test whether the lot has one. *)
Record Lot := mkLot { currency : str; cost : option Amount }.

(** Modelled from the spec: [position.Position], declared outside this
    module. The renderers read [pos.lot] and [pos.number]. *)
Record Position := mkPosition { lot : Lot; number : Decimal }.

(** Modelled from the spec: [inventory.Inventory], declared outside this
    module: a collection of positions, taken as the list
    [inv.get_positions()] returns. *)
Definition Inventory := list Position.

(** A cell of a result row: [None] or a value of one of the column types. *)
Inductive value :=
| VNone
| VStr (s : str)
| VDate (d : Date)
| VDecimal (d : Decimal)
| VPosition (p : Position)
| VInventory (inv : Inventory).

(** ** StringRenderer *)

Module StringRenderer.

Record t := mk { maxlen : nat; fmt : option template }.

Definition init : t := mk 0 None.

Definition update (self : t) (string : option str) : t :=
  match string with
  | Some s => mk (Nat.max (maxlen self) (length s)) (fmt self)
  | None => self
  end.

(** ['{{:<{}.{}}}'.format(self.maxlen, self.maxlen)]. *)
Definition prepare (self : t) : t :=
  mk (maxlen self) (Some [Field (maxlen self) (Some (maxlen self))]).

Definition width (self : t) : Z := Z.of_nat (maxlen self).

Definition format (self : t) (string : option str) : result str :=
  match fmt self with
  | None => Raise AttributeError
  | Some f => tformat f [Line (match string with None => [] | Some s => s end)]
  end.

End StringRenderer.

(** ** DateTimeRenderer *)

Module DateTimeRenderer.

Record t := mk { empty : str }.

Definition init : t := mk (spaces 10).

Definition update (self : t) (_ : value) : t := self.

Definition width (self : t) : Z := 10.

Definition format (self : t) (dtime : option Date) : str :=
  match dtime with
  | None => empty self
  | Some d => strftime_ymd d
  end.

End DateTimeRenderer.

(** ** DecimalRenderer *)

Module DecimalRenderer.

(** The format string ['{:{sign}{width:d}.{precision:d}f}'], by its three
    parameters. *)
Record spec := mkspec { space_sign : bool; f_width : nat; f_precision : nat }.

Record t := mk {
  has_negative : bool;
  max_adjusted : Z;
  min_exponent : Z;
  total_width : option Z;
  fmt : option spec;
  empty : option str
}.

Definition init : t := mk false 0 0 None None None.

Definition update (self : t) (number : option Decimal) : t :=
  match number with
  | None => self
  | Some n =>
      mk (if sign n then true else has_negative self)
         (Z.max (max_adjusted self) (adjusted n))
         (Z.min (min_exponent self) (exponent n))
         (total_width self) (fmt self) (empty self)
  end.

Definition prepare (self : t) : t :=
  let digits_sign := if has_negative self then 1 else 0 in
  let digits_integral := Z.max (max_adjusted self) 0 + 1 in
  let digits_fractional := - min_exponent self in
  let digits_period := if 0 <? digits_fractional then 1 else 0 in
  let width := digits_sign + digits_integral + digits_period + digits_fractional in
  mk (has_negative self) (max_adjusted self) (min_exponent self)
     (Some width)
     (Some (mkspec (0 <? digits_sign) (Z.to_nat width) (Z.to_nat digits_fractional)))
     (Some (spaces (Z.to_nat width))).

Definition width (self : t) : option Z := total_width self.

Definition format (self : t) (number : option Decimal) : result str :=
  match number with
  | None =>
      match empty self with Some e => Ok e | None => Raise AttributeError end
  | Some n =>
      match fmt self with
      | Some f => Ok (format_f (space_sign f) (f_width f) (f_precision f) n)
      | None => Raise AttributeError
      end
  end.

End DecimalRenderer.

(** ** PositionRenderer *)

(** The width an int takes in a format spec; [prepare] has set it by then,
    to a number that is not negative. *)
Definition spec_width (w : option Z) : nat :=
  match w with Some z => Z.to_nat z | None => O end.

(** The end of [PositionRenderer.format] and of [InventoryRenderer.format]:
    one string is returned as it is, no string is [self.empty], several
    strings are a list. *)
Definition strings_result (strings : list str) (empty : option str) : result cell :=
  match strings with
  | [s] => Ok (Line s)
  | [] => match empty with Some e => Ok (Line e) | None => Raise AttributeError end
  | _ => Ok (Lines strings)
  end.

Module PositionRenderer.

Record t := mk {
  units_rdr : DecimalRenderer.t;
  units_ccylen : nat;
  cost_rdr : DecimalRenderer.t;
  cost_ccylen : nat;
  fmt_cost : option template;
  fmt_nocost : option template;
  empty : option str
}.

Definition init : t :=
  mk DecimalRenderer.init 0 DecimalRenderer.init 0 None None None.

Definition update (self : t) (pos : option Position) : t :=
  match pos with
  | None => self
  | Some pos =>
      let lot := lot pos in
      let cost := cost lot in
      let units_rdr := DecimalRenderer.update (units_rdr self) (Some (number pos)) in
      let units_ccylen := Nat.max (units_ccylen self) (length (currency lot)) in
      match cost with
      | Some cost =>
          mk units_rdr units_ccylen
             (DecimalRenderer.update (cost_rdr self) (Some (a_number cost)))
             (Nat.max (cost_ccylen self) (length (a_currency cost)))
             (fmt_cost self) (fmt_nocost self) (empty self)
      | None =>
          mk units_rdr units_ccylen (cost_rdr self) (cost_ccylen self)
             (fmt_cost self) (fmt_nocost self) (empty self)
      end
  end.

Definition prepare (self : t) : result t :=
  let units_rdr := DecimalRenderer.prepare (units_rdr self) in
  let cost_rdr := DecimalRenderer.prepare (cost_rdr self) in
  (* '{{:{0}}} {{:{1}}}' *)
  let fmt_units :=
    [Field (spec_width (DecimalRenderer.width units_rdr)) None; Lit (lit " ");
     Field (units_ccylen self) None] in
  (* '{{{{{{:{0}}} {{:{1}}}}}}}': a brace, two fields, a brace *)
  let fmt_cost :=
    [Lit (lit "{"); Field (spec_width (DecimalRenderer.width cost_rdr)) None;
     Lit (lit " "); Field (cost_ccylen self) None; Lit (lit "}")] in
  if Nat.eqb (cost_ccylen self) 0 then
    empty <- tformat fmt_units [Line []; Line []] ;;
    Ok (mk units_rdr (units_ccylen self) cost_rdr (cost_ccylen self)
           None (Some fmt_units) (Some empty))
  else
    blank <- tformat fmt_cost [Line []; Line []] ;;
    let fmt_nocost := fmt_units ++ [Lit (lit " ")] ++ [Lit (spaces (length blank))] in
    empty <- tformat fmt_nocost [Line []; Line []] ;;
    Ok (mk units_rdr (units_ccylen self) cost_rdr (cost_ccylen self)
           (Some (fmt_units ++ [Lit (lit " ")] ++ fmt_cost))
           (Some fmt_nocost) (Some empty)).

Definition width (self : t) : result Z :=
  match empty self with
  | Some e => Ok (Z.of_nat (length e))
  | None => Raise AttributeError
  end.

(** [fmt.format( *args )] on an attribute that may be unset or [None]. *)
Definition attr_format (fmt : option template) (args : list cell) : result str :=
  match fmt with
  | Some f => tformat f args
  | None => Raise AttributeError
  end.

(** The string of one position: the branches of [format] for it. *)
Definition format_position (self : t) (pos : Position) : result str :=
  if Nat.eqb (cost_ccylen self) 0 then
    let lot := lot pos in
    units <- DecimalRenderer.format (units_rdr self) (Some (number pos)) ;;
    attr_format (fmt_nocost self) [Line units; Line (currency lot)]
  else
    let lot := lot pos in
    let cost := cost lot in
    match cost with
    | Some cost =>
        units <- DecimalRenderer.format (units_rdr self) (Some (number pos)) ;;
        costs <- DecimalRenderer.format (cost_rdr self) (Some (a_number cost)) ;;
        attr_format (fmt_cost self)
          [Line units; Line (currency lot); Line costs; Line (a_currency cost)]
    | None =>
        units <- DecimalRenderer.format (units_rdr self) (Some (number pos)) ;;
        attr_format (fmt_nocost self) [Line units; Line (currency lot)]
    end.

(** [format] reads [pos.lot] whatever [pos] is: on [None] that raises. *)
Definition format (self : t) (pos : option Position) : result cell :=
  match pos with
  | None => Raise AttributeError
  | Some pos =>
      s <- format_position self pos ;;
      strings_result [s] (empty self)
  end.

End PositionRenderer.

(** ** InventoryRenderer, a subclass of PositionRenderer *)

Module InventoryRenderer.

Definition t := PositionRenderer.t.

Definition init : t := PositionRenderer.init.

Definition update (self : t) (inv : option Inventory) : t :=
  match inv with
  | None => self
  | Some inv =>
      fold_left (fun self pos => PositionRenderer.update self (Some pos)) inv self
  end.

Definition prepare : t -> result t := PositionRenderer.prepare.

Definition width : t -> result Z := PositionRenderer.width.

(** The loop of [format] over [inv.get_positions()]. *)
Fixpoint format_positions (self : t) (positions : list Position) : result (list str) :=
  match positions with
  | [] => Ok []
  | position :: rest =>
      s <- PositionRenderer.format_position self position ;;
      strings <- format_positions self rest ;;
      Ok (s :: strings)
  end.

(** [format] calls [inv.get_positions()] whatever [inv] is: on [None] that
    raises. *)
Definition format (self : t) (inv : option Inventory) : result cell :=
  match inv with
  | None => Raise AttributeError
  | Some inv =>
      strings <- format_positions self inv ;;
      strings_result strings (PositionRenderer.empty self)
  end.

End InventoryRenderer.

(** ** Columns: the renderer of a data type *)

(** The keys of [RENDERERS]: the [dtype] of the five renderer classes. *)
Inductive dtype := t_str | t_Decimal | t_date | t_Position | t_Inventory.

Inductive renderer :=
| RString (r : StringRenderer.t)
| RDecimal (r : DecimalRenderer.t)
| RDateTime (r : DateTimeRenderer.t)
| RPosition (r : PositionRenderer.t)
| RInventory (r : InventoryRenderer.t).

(** [RENDERERS[dtype]()]. *)
Definition RENDERERS (dt : dtype) : renderer :=
  match dt with
  | t_str => RString StringRenderer.init
  | t_Decimal => RDecimal DecimalRenderer.init
  | t_date => RDateTime DateTimeRenderer.init
  | t_Position => RPosition PositionRenderer.init
  | t_Inventory => RInventory InventoryRenderer.init
  end.

(** The methods of a renderer on a cell. The values of a column are assumed
    to be of its [dtype] or [None]; on a value of another type the first
    operation the method applies to it raises. *)
Definition update (r : renderer) (v : value) : result renderer :=
  match r, v with
  | RString s, VNone => Ok (RString (StringRenderer.update s None))
  | RString s, VStr x => Ok (RString (StringRenderer.update s (Some x)))
  | RString _, _ => Raise TypeError
  | RDecimal d, VNone => Ok (RDecimal (DecimalRenderer.update d None))
  | RDecimal d, VDecimal x => Ok (RDecimal (DecimalRenderer.update d (Some x)))
  | RDecimal _, _ => Raise AttributeError
  | RDateTime d, _ => Ok (RDateTime (DateTimeRenderer.update d v))
  | RPosition p, VNone => Ok (RPosition (PositionRenderer.update p None))
  | RPosition p, VPosition x => Ok (RPosition (PositionRenderer.update p (Some x)))
  | RPosition _, _ => Raise AttributeError
  | RInventory p, VNone => Ok (RInventory (InventoryRenderer.update p None))
  | RInventory p, VInventory x => Ok (RInventory (InventoryRenderer.update p (Some x)))
  | RInventory _, _ => Raise AttributeError
  end.

Definition prepare (r : renderer) : result renderer :=
  match r with
  | RString s => Ok (RString (StringRenderer.prepare s))
  | RDecimal d => Ok (RDecimal (DecimalRenderer.prepare d))
  | RDateTime d => Ok (RDateTime d)
  | RPosition p => p' <- PositionRenderer.prepare p ;; Ok (RPosition p')
  | RInventory p => p' <- InventoryRenderer.prepare p ;; Ok (RInventory p')
  end.

(** [renderer.width()]: an int, or [None] for a decimal renderer that was
    not prepared. *)
Definition width (r : renderer) : result (option Z) :=
  match r with
  | RString s => Ok (Some (StringRenderer.width s))
  | RDecimal d => Ok (DecimalRenderer.width d)
  | RDateTime d => Ok (Some (DateTimeRenderer.width d))
  | RPosition p => w <- PositionRenderer.width p ;; Ok (Some w)
  | RInventory p => w <- InventoryRenderer.width p ;; Ok (Some w)
  end.

Definition format (r : renderer) (v : value) : result cell :=
  match r, v with
  | RString s, VNone => x <- StringRenderer.format s None ;; Ok (Line x)
  | RString s, VStr x => x <- StringRenderer.format s (Some x) ;; Ok (Line x)
  | RString _, _ => Raise TypeError
  | RDecimal d, VNone => x <- DecimalRenderer.format d None ;; Ok (Line x)
  | RDecimal d, VDecimal x => x <- DecimalRenderer.format d (Some x) ;; Ok (Line x)
  | RDecimal _, _ => Raise TypeError
  | RDateTime d, VNone => Ok (Line (DateTimeRenderer.format d None))
  | RDateTime d, VDate x => Ok (Line (DateTimeRenderer.format d (Some x)))
  | RDateTime _, _ => Raise AttributeError
  | RPosition p, VNone => PositionRenderer.format p None
  | RPosition p, VPosition x => PositionRenderer.format p (Some x)
  | RPosition _, _ => Raise AttributeError
  | RInventory p, VNone => InventoryRenderer.format p None
  | RInventory p, VInventory x => InventoryRenderer.format p (Some x)
  | RInventory _, _ => Raise AttributeError
  end.

(** ** get_renderers *)

(** [for value, renderer in zip(row, renderers): renderer.update(value)]:
    the renderers are updated in place, [zip] stops at the shorter of the
    two, and the renderers past the end of the row are left as they are. *)
Fixpoint update_row (renderers : list renderer) (row : list value)
  : result (list renderer) :=
  match renderers, row with
  | r :: rs, v :: vs =>
      r' <- update r v ;;
      rs' <- update_row rs vs ;;
      Ok (r' :: rs')
  | _, _ => Ok renderers
  end.

Fixpoint update_rows (renderers : list renderer) (rows : list (list value))
  : result (list renderer) :=
  match rows with
  | [] => Ok renderers
  | row :: rest =>
      renderers' <- update_row renderers row ;;
      update_rows renderers' rest
  end.

Fixpoint prepare_all (renderers : list renderer) : result (list renderer) :=
  match renderers with
  | [] => Ok []
  | r :: rs =>
      r' <- prepare r ;;
      rs' <- prepare_all rs ;;
      Ok (r' :: rs')
  end.

Definition get_renderers (result_types : list (str * dtype))
           (result_rows : list (list value)) : result (list renderer) :=
  let renderers := map (fun nt => RENDERERS (snd nt)) result_types in
  renderers <- update_rows renderers result_rows ;;
  prepare_all renderers.

(** ** render_text *)

(** [exp_row] of one row: the cells formatted by [zip(row, renderers)]. *)
Fixpoint format_row (renderers : list renderer) (row : list value)
  : result (list cell) :=
  match renderers, row with
  | r :: rs, v :: vs =>
      exp_lines <- format r v ;;
      rest <- format_row rs vs ;;
      Ok (exp_lines :: rest)
  | _, _ => Ok []
  end.

(** [max_lines] of one row: 1, raised to the length of every list. *)
Definition row_max_lines (exp_row : list cell) : nat :=
  fold_left (fun max_lines exp_lines =>
               match exp_lines with
               | Lines l => Nat.max max_lines (length l)
               | Line _ => max_lines
               end) exp_row 1%nat.

(** [exp_value if isinstance(exp_value, list) else (exp_value,)]. *)
Definition wrap (exp_value : cell) : list str :=
  match exp_value with
  | Lines l => l
  | Line s => [s]
  end.

(** [zip_longest(range(max_lines), exp_value, fillvalue='')], for an
    [exp_value] of at most [max_lines] lines: the line of every index, the
    empty string past the last. *)
Definition filled (max_lines : nat) (exp_value : list str) : list str :=
  map (fun index => nth index exp_value []) (seq 0 max_lines).

(** [str_lines[index].append(exp_line)] for every index. *)
Fixpoint append_lines (str_lines : list (list cell)) (exp_lines : list str)
  : list (list cell) :=
  match str_lines, exp_lines with
  | l :: ls, x :: xs => (l ++ [Line x]) :: append_lines ls xs
  | _, _ => str_lines
  end.

(** The rows one result row adds to [str_rows]. *)
Definition expand_row (exp_row : list cell) : list (list cell) :=
  let max_lines := row_max_lines exp_row in
  if Nat.eqb max_lines 1 then [exp_row]
  else
    let exp_row := map wrap exp_row in
    let str_lines := repeat [] max_lines in
    fold_left (fun str_lines exp_value =>
                 append_lines str_lines (filled max_lines exp_value))
              exp_row str_lines.

Fixpoint format_rows (renderers : list renderer) (rows : list (list value))
  : result (list (list cell)) :=
  match rows with
  | [] => Ok []
  | row :: rest =>
      exp_row <- format_row renderers row ;;
      str_rows <- format_rows renderers rest ;;
      Ok (expand_row exp_row ++ str_rows)
  end.

(** ['{{:{}}}'.format(renderer.width())]; the width [None] makes a format
    spec that no [format] call accepts. *)
Definition field_format (r : renderer) : result template :=
  w <- width r ;;
  match w with
  | Some w => Ok [Field (Z.to_nat w) None]
  | None => Raise ValueError
  end.

Fixpoint field_formats (renderers : list renderer) : result (list template) :=
  match renderers with
  | [] => Ok []
  | r :: rs =>
      f <- field_format r ;;
      fs <- field_formats rs ;;
      Ok (f :: fs)
  end.

(** [sep.join(formats)] on format strings. *)
Fixpoint tjoin (sep : str) (formats : list template) : template :=
  match formats with
  | [] => []
  | [f] => f
  | f :: rest => f ++ [Lit sep] ++ tjoin sep rest
  end.

Definition newline : str := ["010"%char].

Definition line_formatter (formats : list template) : template :=
  [Lit (lit "| ")] ++ tjoin (lit " | ") formats ++ [Lit (lit " |" ++ newline)].

(** ['-' * len(fmt.format(''))] for every format. *)
Fixpoint dashes (formats : list template) : result (list str) :=
  match formats with
  | [] => Ok []
  | fmt :: rest =>
      s <- tformat fmt [Line []] ;;
      ds <- dashes rest ;;
      Ok (times "-"%char (length s) :: ds)
  end.

Definition line_body (formats : list template) : result str :=
  ds <- dashes formats ;;
  Ok (lit "-" ++ join (lit "-+-") ds ++ lit "-").

Definition top_line (body : str) : str := lit "," ++ body ++ lit "." ++ newline.
Definition middle_line (body : str) : str := lit "+" ++ body ++ lit "+" ++ newline.
Definition bottom_line (body : str) : str := lit "`" ++ body ++ lit "'" ++ newline.

(** A file open for writing: the strings written to it so far. *)
Definition file := list str.

Definition write (f : file) (s : str) : file := f ++ [s].

(** [for str_row in str_rows: file.write(line_formatter.format( *str_row ))]. *)
Fixpoint write_rows (fmt : template) (str_rows : list (list cell)) (f : file)
  : result unit * file :=
  match str_rows with
  | [] => (Ok tt, f)
  | str_row :: rest =>
      match tformat fmt str_row with
      | Ok line => write_rows fmt rest (write f line)
      | Raise e => (Raise e, f)
      end
  end.

(** What [render_text] computes before it writes: the rendered rows, the
    format of a line and the body of the border lines. *)
Definition render_setup (result_types : list (str * dtype))
           (result_rows : list (list value))
  : result (list (list cell) * template * str) :=
  _ <- match result_rows with
       | row0 :: _ =>
           if Nat.eqb (length result_types) (length row0) then Ok tt
           else Raise AssertionError
       | [] => Ok tt
       end ;;
  renderers <- get_renderers result_types result_rows ;;
  str_rows <- format_rows renderers result_rows ;;
  formats <- field_formats renderers ;;
  body <- line_body formats ;;
  Ok (str_rows, line_formatter formats, body).

(** [render_text(result_types, result_rows, file)]: the outcome of the call
    and the file after it. *)
Definition render_text (result_types : list (str * dtype))
           (result_rows : list (list value)) (f : file) : result unit * file :=
  match render_setup result_types result_rows with
  | Raise e => (Raise e, f)
  | Ok (str_rows, formatter, body) =>
      let f := write f (top_line body) in
      let f := write f (middle_line body) in
      match write_rows formatter str_rows f with
      | (Ok _, f) => (Ok tt, write f (bottom_line body))
      | (Raise e, f) => (Raise e, f)
      end
  end.

(** * The vocabulary of the properties

    The states the renderers reach, what their statistics record about a
    value, the formula and the row expansion by the words of the
    specification, and the reader of a formatted number. *)

Section StrTerms.

(** A blank string: spaces only. *)
Definition blank (s : str) : Prop := Forall (fun c => c = " "%char) s.

End StrTerms.

Section DecimalRendererTerms.

Import DecimalRenderer.

(** The renderer after [update] on every cell of a column, in order. *)
Definition accumulate (cells : list (option Decimal)) : t :=
  fold_left update cells init.

(** What the statistics of a renderer record about a number it has seen. *)
Definition covers (r : t) (n : Decimal) : Prop :=
  (sign n = true -> has_negative r = true) /\
  adjusted n <= max_adjusted r /\
  min_exponent r <= exponent n.

(** The bounds [__init__] sets and [update] keeps. *)
Definition bounded (r : t) : Prop :=
  0 <= max_adjusted r /\ min_exponent r <= 0.

(** The sign, the integer part and the fraction that [format_f] aligns. *)
Definition sign_str (space_sign : bool) (n : Decimal) : str :=
  if sign n then lit "-" else if space_sign then lit " " else [].

Definition frac_str (f : list digit) : str :=
  match f with [] => [] | _ => lit "." ++ digits_str f end.

End DecimalRendererTerms.

Section PositionRendererTerms.

Import PositionRenderer.

(** The renderer after [update] on every cell of a position column. *)
Definition accumulate_positions (cells : list (option Position)) : t :=
  fold_left update cells init.

(** The renderer after [update] on every cell of an inventory column. *)
Definition accumulate_inventories (cells : list (option Inventory)) : t :=
  fold_left InventoryRenderer.update cells InventoryRenderer.init.

(** What the statistics of a renderer record about a position it has seen. *)
Definition pos_covers (r : t) (pos : Position) : Prop :=
  covers (units_rdr r) (number pos) /\
  (length (currency (lot pos)) <= units_ccylen r)%nat /\
  match cost (lot pos) with
  | Some c =>
      covers (cost_rdr r) (a_number c) /\
      (length (a_currency c) <= cost_ccylen r)%nat
  | None => True
  end.

Definition pos_bounded (r : t) : Prop :=
  bounded (units_rdr r) /\ bounded (cost_rdr r).

(** The widths of the two decimal sub-fields after [prepare]. *)
Definition units_width (r : t) : nat :=
  spec_width (DecimalRenderer.width (DecimalRenderer.prepare (units_rdr r))).

Definition cost_width (r : t) : nat :=
  spec_width (DecimalRenderer.width (DecimalRenderer.prepare (cost_rdr r))).

(** The three strings a prepared renderer can produce, field by field. *)
Definition units_text (r : t) (units ccy : str) : str :=
  format_field (units_width r) None units ++ lit " " ++
  format_field (units_ccylen r) None ccy.

Definition cost_text (r : t) (costs ccy : str) : str :=
  lit "{" ++ format_field (cost_width r) None costs ++ lit " " ++
  format_field (cost_ccylen r) None ccy ++ lit "}".

Definition cost_blank (r : t) : str :=
  spaces (length (cost_text r [] [])).

End PositionRendererTerms.

Section ColumnTerms.

(** What [__init__] sets and [update] keeps: the bounds of the statistics,
    the ten spaces of the date renderer. *)
Definition rdr_bounded (r : renderer) : Prop :=
  match r with
  | RString _ => True
  | RDecimal d => bounded d
  | RDateTime d => DateTimeRenderer.empty d = spaces 10
  | RPosition p => pos_bounded p
  | RInventory p => pos_bounded p
  end.

(** The statistics of the renderer record the value. *)
Definition seen (r : renderer) (v : value) : Prop :=
  match r, v with
  | RString s, VStr x => (length x <= StringRenderer.maxlen s)%nat
  | RDecimal d, VDecimal x => covers d x
  | RPosition p, VPosition x => pos_covers p x
  | RInventory p, VInventory inv => Forall (pos_covers p) inv
  | _, _ => True
  end.

(** The lines of a formatted cell. *)
Definition cell_lines (c : cell) : list str := wrap c.

(** A list is returned for two strings or more. *)
Definition proper_cell (c : cell) : Prop :=
  match c with
  | Line _ => True
  | Lines l => (2 <= length l)%nat
  end.

End ColumnTerms.

Section RowTerms.

(** [zip(la, lb)] relates its pairs: the relation holds up to the end of
    the shorter list. *)
Inductive zip_all {A B} (P : A -> B -> Prop) : list A -> list B -> Prop :=
| zip_all_left lb : zip_all P [] lb
| zip_all_right la : zip_all P la []
| zip_all_cons a b la lb :
    P a b -> zip_all P la lb -> zip_all P (a :: la) (b :: lb).

(** A renderer after more updates: still bounded, and it has seen what it
    had seen. *)
Definition grows (r r' : renderer) : Prop :=
  rdr_bounded r' /\ forall x, seen r x -> seen r' x.

(** A prepared renderer that had seen the value. *)
Definition ready (r' : renderer) (v : value) : Prop :=
  exists r, rdr_bounded r /\ seen r v /\ prepare r = Ok r'.

End RowTerms.

Section FormatTerms.

(** The width of the column of a prepared renderer, as a field width. *)
Definition col_width (r : renderer) : nat :=
  match width r with
  | Ok (Some w) => Z.to_nat w
  | _ => O
  end.

(** The renderer has a width, and it is not negative. *)
Definition has_width (r : renderer) : Prop :=
  width r = Ok (Some (Z.of_nat (col_width r))).

(** The cell has the lines of a cell of the column of [r]: each of the width
    of the column, and in a list only when they are two or more. *)
Definition fits (r : renderer) (c : cell) : Prop :=
  Forall (fun s => length s = col_width r) (cell_lines c) /\ proper_cell c.

End FormatTerms.

Section ExpandTerms.

(** The number of lines of a formatted cell. *)
Definition line_count (c : cell) : nat := length (cell_lines c).

(** The physical rows of a formatted row by the words of the
    specification: row [k] takes from every cell its line [k], or the empty
    string when the cell has no such line. *)
Definition physical_rows (exp_row : list cell) : list (list str) :=
  map (fun k => map (fun c => nth k (cell_lines c) []) exp_row)
      (seq 0 (Nat.max 1 (list_max (map line_count exp_row)))).

End ExpandTerms.

Section LineTerms.

(** The format of one column. *)
Definition field_of (w : nat) : template := [Field w None].

(** The fields of a physical row, each in the width of its column. *)
Definition padded (ws : list nat) (fields : list str) : list str :=
  map (fun wf => format_field (fst wf) None (snd wf)) (combine ws fields).

(** The line of a physical row. *)
Definition text_line (ws : list nat) (fields : list str) : str :=
  lit "| " ++ join (lit " | ") (padded ws fields) ++ lit " |" ++ newline.

(** The body of the border lines for columns of the widths [ws]. *)
Definition body_of (ws : list nat) : str :=
  lit "-" ++ join (lit "-+-") (map (times "-"%char) ws) ++ lit "-".

(** The length of a joined list: the parts and the separators between. *)
Fixpoint total_length (parts : list str) : nat :=
  match parts with
  | [] => O
  | p :: rest => (length p + total_length rest)%nat
  end.

End LineTerms.

Section RenderTerms.

(** A result row and its formatted row. *)
Definition formats_to (rs : list renderer) (row : list value) (exp_row : list cell)
  : Prop :=
  format_row rs row = Ok exp_row /\
  zip_all fits rs exp_row /\
  length exp_row = Nat.min (length rs) (length row).

End RenderTerms.

Section WidthFormulaTerms.

Import DecimalRenderer.

(** The numbers of a column: its cells that are not [None]. *)
Definition numbers (cells : list (option Decimal)) : list Decimal :=
  flat_map (fun c => match c with Some n => [n] | None => [] end) cells.

(** The largest and the smallest element of a list, if it has any. *)
Definition maximum (l : list Z) : option Z :=
  fold_right (fun x acc => Some (match acc with Some m => Z.max x m | None => x end))
             None l.

Definition minimum (l : list Z) : option Z :=
  fold_right (fun x acc => Some (match acc with Some m => Z.min x m | None => x end))
             None l.

(** The formula by the words of the specification. Without any number
    there is one integer digit and nothing else. *)
Definition spec_sign_width (nums : list Decimal) : Z :=
  if existsb sign nums then 1 else 0.

Definition spec_integer_digits (nums : list Decimal) : Z :=
  match maximum (map adjusted nums) with
  | Some m => Z.max m 0 + 1
  | None => 1
  end.

Definition spec_fractional_digits (nums : list Decimal) : Z :=
  match minimum (map exponent nums) with
  | Some m => if 0 <=? m then 0 else - m
  | None => 0
  end.

Definition spec_decimal_point_width (nums : list Decimal) : Z :=
  if 0 <? spec_fractional_digits nums then 1 else 0.

Definition spec_total_width (nums : list Decimal) : Z :=
  spec_sign_width nums + spec_integer_digits nums
  + spec_decimal_point_width nums + spec_fractional_digits nums.

End WidthFormulaTerms.

Section CostFieldTerms.

Import PositionRenderer.

(** The renderer after [update] on the positions [ps], in order. *)
Definition after_positions (ps : list Position) : t :=
  fold_left (fun self p => update self (Some p)) ps init.

(** The positions of a position column and of an inventory column. *)
Definition present (cells : list (option Position)) : list Position :=
  flat_map (fun c => match c with Some p => [p] | None => [] end) cells.

Definition held (cells : list (option Inventory)) : list Position :=
  flat_map (fun c => match c with Some inv => inv | None => [] end) cells.

(** The lengths of the currency labels of the costs of the positions. *)
Definition cost_labels (ps : list Position) : list nat :=
  flat_map (fun p => match cost (lot p) with
                     | Some c => [length (a_currency c)]
                     | None => []
                     end) ps.

End CostFieldTerms.

Section TableTerms.

(** A row with an inventory of two positions, one with a cost. *)
Definition example_types : list (str * dtype) :=
  [(lit "account", t_str); (lit "balance", t_Inventory)].

Definition example_row : list value :=
  [VStr (lit "Assets");
   VInventory
     [mkPosition
        (mkLot (lit "GOOG")
               (Some (mkAmount (mkDecimal false [D5; D0; D0] 0) (lit "USD"))))
        (mkDecimal false [D1; D0] 0);
      mkPosition (mkLot (lit "USD") None)
                 (mkDecimal true [D1; D0; D0; D2; D5] (-2))]].

Definition example_renderers : list renderer :=
  Eval vm_compute in
    match get_renderers example_types [example_row] with
    | Ok rs => rs
    | Raise _ => []
    end.

Definition example_exp_row : list cell :=
  [Line (lit "Assets");
   Lines [lit "  10.00 GOOG {500 USD}"; lit "-100.25 USD           "]].

End TableTerms.

Section RoundTripTerms.

Import DecimalRenderer.

(** [s.lstrip()] and [s.strip()], for the blanks [format] pads with. *)
Fixpoint lstrip (s : str) : str :=
  match s with
  | c :: s' => if Ascii.eqb c " " then lstrip s' else s
  | [] => []
  end.

Definition strip (s : str) : str := rev (lstrip (rev (lstrip s))).

(** The digits a string starts with, and the rest of it. *)
Fixpoint span_digits (s : str) : list digit * str :=
  match s with
  | c :: s' =>
      match char_digit c with
      | Some d => let '(ds, rest) := span_digits s' in (d :: ds, rest)
      | None => ([], s)
      end
  | [] => ([], [])
  end.

(** [Decimal(text)] for a number in fixed-point notation, the notation of
    [format]: blanks around it are stripped; then come a sign, if any, the
    digits of the integer part, and, if any, a point and the digits of the
    fraction, with a digit on one side of the point at least. The
    coefficient is [str(int(intpart + fracpart))] and the exponent is minus
    the number of digits of the fraction. Any other text is not read. *)
Definition parse_decimal (text : str) : option Decimal :=
  let s := strip text in
  let '(sg, s) :=
    match s with
    | c :: s' =>
        if Ascii.eqb c "-" then (true, s')
        else if Ascii.eqb c "+" then (false, s')
        else (false, s)
    | [] => (false, s)
    end in
  let '(intpart, s) := span_digits s in
  let '(fracpart, s) :=
    match s with
    | c :: s' => if Ascii.eqb c "." then span_digits s' else ([], s)
    | [] => ([], s)
    end in
  match s, intpart ++ fracpart with
  | [], _ :: _ =>
      Some (mkDecimal sg (strip_zeros (intpart ++ fracpart))
                      (- Z.of_nat (length fracpart)))
  | _, _ => None
  end.

End RoundTripTerms.

Section MoreTerms.

(** The strings of a column: its cells that are not [None]. *)
Definition strings (cells : list (option str)) : list str :=
  flat_map (fun c => match c with Some x => [x] | None => [] end) cells.

(** The renderer after [update] on every cell of a string column. *)
Definition accumulate_strings (cells : list (option str)) : StringRenderer.t :=
  fold_left StringRenderer.update cells StringRenderer.init.

(** The class of a renderer, by the [dtype] it is registered for. *)
Definition kind (r : renderer) : dtype :=
  match r with
  | RString _ => t_str
  | RDecimal _ => t_Decimal
  | RDateTime _ => t_date
  | RPosition _ => t_Position
  | RInventory _ => t_Inventory
  end.

(** The width of a column of the type [dt] in which nothing was
    accumulated. *)
Definition initial_width (dt : dtype) : nat :=
  match dt with
  | t_str => 0
  | t_Decimal => 1
  | t_date => 10
  | t_Position => 2
  | t_Inventory => 2
  end.

(** A cell every method of the renderer of [dt] accepts: a value of the type
    of the column, or [None] where [format] tests for it. *)
Definition cell_ok (dt : dtype) (v : value) : Prop :=
  match dt, v with
  | t_str, (VNone | VStr _) => True
  | t_Decimal, (VNone | VDecimal _) => True
  | t_date, (VNone | VDate _) => True
  | t_Position, VPosition _ => True
  | t_Inventory, VInventory _ => True
  | _, _ => False
  end.

(** A row with one accepted cell for every column. *)
Definition row_ok (result_types : list (str * dtype)) (row : list value) : Prop :=
  Forall2 cell_ok (map snd result_types) row.

(** One renderer has seen no less than another. *)
Definition stats_le (r r' : DecimalRenderer.t) : Prop :=
  (DecimalRenderer.has_negative r = true -> DecimalRenderer.has_negative r' = true) /\
  DecimalRenderer.max_adjusted r <= DecimalRenderer.max_adjusted r' /\
  DecimalRenderer.min_exponent r' <= DecimalRenderer.min_exponent r.

End MoreTerms.

(** * Properties *)

(** ** Strings and templates *)

Section StrFacts.

Lemma length_times c n : length (times c n) = n.
Proof. apply repeat_length. Qed.

Lemma length_spaces n : length (spaces n) = n.
Proof. apply length_times. Qed.

Lemma length_ljust w s : length (ljust w s) = Nat.max w (length s).
Proof. unfold ljust. rewrite length_app, length_spaces. lia. Qed.

Lemma length_rjust w s : length (rjust w s) = Nat.max w (length s).
Proof. unfold rjust. rewrite length_app, length_spaces. lia. Qed.

Lemma length_digits_str ds : length (digits_str ds) = length ds.
Proof. apply length_map. Qed.

Lemma length_format_field_fit w s :
  (length s <= w)%nat -> length (format_field w None s) = w.
Proof. intros H. unfold format_field. rewrite length_ljust. lia. Qed.

Lemma length_format_field_trunc w s :
  length (format_field w (Some w) s) = w.
Proof.
  unfold format_field. rewrite length_ljust, length_firstn. lia.
Qed.

Lemma blank_spaces n : blank (spaces n).
Proof.
  unfold blank, spaces, times. apply Forall_forall. intros c H.
  now apply repeat_spec in H.
Qed.

Lemma blank_app s1 s2 : blank s1 -> blank s2 -> blank (s1 ++ s2).
Proof. unfold blank. intros. now apply Forall_app. Qed.

Lemma blank_eq_spaces s : blank s -> s = spaces (length s).
Proof.
  induction 1 as [|c s Hc _ IH]; [reflexivity|].
  subst c. cbn [length]. unfold spaces, times in *. cbn [repeat].
  f_equal. exact IH.
Qed.

End StrFacts.

(** ** Decimal numbers in fixed-point notation *)

Section DecimalFacts.

Lemma coeff_acc ds : forall acc,
  fold_left (fun acc d => 10 * acc + digit_val d) ds acc
  = acc * 10 ^ Z.of_nat (length ds) + coeff ds.
Proof.
  unfold coeff. induction ds as [|d ds IH]; intros acc.
  - simpl. lia.
  - cbn [fold_left length]. rewrite IH. rewrite (IH (10 * 0 + digit_val d)).
    rewrite Nat2Z.inj_succ, Z.pow_succ_r by lia. ring.
Qed.

Lemma coeff_app ds1 ds2 :
  coeff (ds1 ++ ds2) = coeff ds1 * 10 ^ Z.of_nat (length ds2) + coeff ds2.
Proof.
  unfold coeff at 1. rewrite fold_left_app. rewrite coeff_acc. reflexivity.
Qed.

Lemma coeff_zeros n : coeff (zeros n) = 0.
Proof.
  induction n as [|n IH]; [reflexivity|].
  change (zeros (S n)) with ([D0] ++ zeros n). rewrite coeff_app, IH.
  cbn. lia.
Qed.

Lemma length_zeros n : length (zeros n) = n.
Proof. apply repeat_length. Qed.

Lemma coeff_all_zero ds : forallb is_D0 ds = true -> coeff ds = 0.
Proof.
  induction ds as [|d ds IH]; [reflexivity|].
  cbn [forallb]. intros H. apply andb_true_iff in H as [Hd Hds].
  change (d :: ds) with ([d] ++ ds). rewrite coeff_app, (IH Hds).
  destruct d; try discriminate. cbn. lia.
Qed.

Lemma coeff_strip_zeros ds : coeff (strip_zeros ds) = coeff ds.
Proof.
  induction ds as [|d ds IH]; [reflexivity|].
  destruct d; try reflexivity.
  destruct ds as [|d' ds']; [reflexivity|].
  change (strip_zeros (D0 :: d' :: ds')) with (strip_zeros (d' :: ds')).
  rewrite IH. change (D0 :: d' :: ds') with ([D0] ++ d' :: ds').
  rewrite coeff_app. cbn [coeff fold_left digit_val]. lia.
Qed.

(** The number [rescale] and [fixed_parts] lay out for a precision that
    covers the number's exponent: the fraction has [prec] digits, the
    integer part is the digits down to the units, or one 0, and integer part
    and fraction together are the coefficient at the exponent [-prec]. *)
Lemma fixed_parts_exact (n : Decimal) (prec : nat) :
  - Z.of_nat prec <= exponent n ->
  let d1 := rescale n (- Z.of_nat prec) in
  let '(i, f) := fixed_parts d1 in
  sign d1 = sign n /\
  exponent d1 = - Z.of_nat prec /\
  length f = prec /\
  Z.of_nat (length i) = (if dec_is_zero n then 1 else Z.max 1 (adjusted n + 1)) /\
  coeff (i ++ f) = coeff (digits n) * 10 ^ (exponent n + Z.of_nat prec).
Proof.
  intros Hexp. unfold rescale.
  destruct (dec_is_zero n) eqn:Hz.
  - (* zero: one digit 0 at the new exponent *)
    unfold dec_is_zero in Hz. rewrite (coeff_all_zero _ Hz).
    unfold fixed_parts. cbn [digits exponent sign length].
    destruct (- Z.of_nat prec + Z.of_nat 1 <? 0) eqn:H1.
    + apply Z.ltb_lt in H1. repeat split.
      * rewrite length_app, length_zeros. cbn [length]. lia.
      * change ([D0] ++ zeros (Z.to_nat (- (- Z.of_nat prec + Z.of_nat 1))) ++ [D0])
          with (zeros (S (Z.to_nat (- (- Z.of_nat prec + Z.of_nat 1)))) ++ [D0]).
        rewrite coeff_app, coeff_zeros. cbn. lia.
    + apply Z.ltb_ge in H1.
      destruct (Z.of_nat 1 <? - Z.of_nat prec + Z.of_nat 1) eqn:H2;
        [apply Z.ltb_lt in H2; lia|].
      destruct prec as [|[|prec]]; try lia; cbn; repeat split; lia.
  - (* nonzero: zeros are appended, no digit is lost *)
    destruct (- Z.of_nat prec <=? exponent n) eqn:Hle;
      [|apply Z.leb_gt in Hle; lia].
    unfold fixed_parts, adjusted. cbn [digits exponent sign].
    set (k := Z.to_nat (exponent n - - Z.of_nat prec)).
    set (ds := digits n).
    rewrite length_app, length_zeros.
    assert (Hk : Z.of_nat k = exponent n + Z.of_nat prec) by (unfold k; lia).
    destruct (- Z.of_nat prec + Z.of_nat (length ds + k) <? 0) eqn:H1.
    + apply Z.ltb_lt in H1. repeat split.
      * rewrite !length_app, !length_zeros. lia.
      * cbn [length]. lia.
      * change ([D0] ++ ?x) with (D0 :: x).
        rewrite app_assoc.
        change (D0 :: (zeros ?a ++ ds) ++ zeros k)
          with ((zeros (S a) ++ ds) ++ zeros k).
        rewrite !coeff_app, !coeff_zeros, !length_zeros, Hk. ring.
    + apply Z.ltb_ge in H1.
      destruct (Z.of_nat (length ds + k) <? - Z.of_nat prec + Z.of_nat (length ds + k)) eqn:H2;
        [apply Z.ltb_lt in H2; lia|].
      set (dp := Z.to_nat (- Z.of_nat prec + Z.of_nat (length ds + k))).
      assert (Hdp : Z.of_nat dp = exponent n + Z.of_nat (length ds)) by (unfold dp; lia).
      assert (Hlen : (dp <= length (ds ++ zeros k))%nat)
        by (rewrite length_app, length_zeros; lia).
      assert (Hfl : length (firstn dp (ds ++ zeros k)) = dp)
        by (rewrite length_firstn; lia).
      assert (Hcat : firstn dp (ds ++ zeros k) ++ skipn dp (ds ++ zeros k)
                     = ds ++ zeros k) by apply firstn_skipn.
      destruct (firstn dp (ds ++ zeros k)) as [|d l] eqn:Hf; cbn [length] in Hfl.
      * repeat split.
        -- rewrite length_skipn, length_app, length_zeros. lia.
        -- cbn [length]. lia.
        -- cbn [app] in Hcat. rewrite Hcat.
           change ([D0] ++ ?x) with (zeros 1 ++ x).
           rewrite !coeff_app, !coeff_zeros, !length_zeros, Hk. ring.
      * repeat split.
        -- rewrite length_skipn, length_app, length_zeros. lia.
        -- cbn [length]. lia.
        -- rewrite Hcat, coeff_app, coeff_zeros, length_zeros, Hk. ring.
Qed.

End DecimalFacts.

(** ** The decimal renderer *)

Section DecimalRendererFacts.

Import DecimalRenderer.

Lemma bounded_init : bounded init.
Proof. split; cbn; lia. Qed.

Lemma bounded_update r c : bounded r -> bounded (update r c).
Proof.
  intros [H1 H2]. destruct c as [n|]; [|now split].
  split; cbn; lia.
Qed.

Lemma covers_update_self r n : covers (update r (Some n)) n.
Proof.
  repeat split; cbn.
  - intros ->. reflexivity.
  - lia.
  - lia.
Qed.

Lemma covers_update_keep r c n : covers r n -> covers (update r c) n.
Proof.
  intros (H1 & H2 & H3). destruct c as [m|]; [|now repeat split].
  repeat split; cbn.
  - intros Hs. rewrite (H1 Hs). now destruct (sign m).
  - lia.
  - lia.
Qed.

Lemma fold_update_invariants cells : forall r,
  bounded r ->
  bounded (fold_left update cells r) /\
  (forall n, covers r n -> covers (fold_left update cells r) n) /\
  (forall n, In (Some n) cells -> covers (fold_left update cells r) n).
Proof.
  induction cells as [|c cells IH]; intros r Hb.
  - cbn. split; [exact Hb|]. split; [intros n Hn; exact Hn|intros n []].
  - cbn [fold_left].
    destruct (IH (update r c) (bounded_update r c Hb)) as (Hb' & Hkeep & Hin).
    split; [exact Hb'|]. split.
    + intros n Hn. apply Hkeep. now apply covers_update_keep.
    + intros n [->|Hn].
      * apply Hkeep. apply covers_update_self.
      * now apply Hin.
Qed.

Lemma accumulate_bounded cells : bounded (accumulate cells).
Proof. apply (fold_update_invariants cells init bounded_init). Qed.

Lemma accumulate_covers cells n :
  In (Some n) cells -> covers (accumulate cells) n.
Proof. apply (fold_update_invariants cells init bounded_init). Qed.

Lemma rescale_sign d e : sign (rescale d e) = sign d.
Proof.
  unfold rescale. destruct (dec_is_zero d); [reflexivity|].
  destruct (e <=? exponent d); [reflexivity|].
  destruct (Z.of_nat (length (digits d)) + exponent d - e <? 0); reflexivity.
Qed.

Lemma rescale_exponent d e : exponent (rescale d e) = e.
Proof.
  unfold rescale. destruct (dec_is_zero d); [reflexivity|].
  destruct (e <=? exponent d); [reflexivity|].
  destruct (Z.of_nat (length (digits d)) + exponent d - e <? 0); reflexivity.
Qed.

Lemma format_f_unfold sp w prec n :
  format_f sp w prec n =
  let '(i, f) := fixed_parts (rescale n (- Z.of_nat prec)) in
  rjust w (sign_str sp n ++ digits_str i ++ frac_str f).
Proof.
  unfold format_f. rewrite rescale_exponent.
  replace (0 <? - Z.of_nat prec) with false by (symmetry; apply Z.ltb_ge; lia).
  rewrite andb_false_r.
  destruct (fixed_parts (rescale n (- Z.of_nat prec))) as [i f].
  rewrite rescale_sign. reflexivity.
Qed.

Lemma length_frac_str f :
  length (frac_str f) = match length f with O => O | S k => S (S k) end.
Proof.
  destruct f as [|d f]; [reflexivity|].
  unfold frac_str. rewrite length_app, length_digits_str. reflexivity.
Qed.

(** Every number the renderer has seen is formatted to the column width. *)
Lemma decimal_format_width r n :
  bounded r -> covers r n ->
  exists s w,
    format (prepare r) (Some n) = Ok s /\
    width (prepare r) = Some w /\ 0 < w /\
    Z.of_nat (length s) = w.
Proof.
  intros [Hmax Hmin] (Hsign & Hadj & Hexp).
  unfold format, prepare, width. cbn [fmt total_width space_sign f_width f_precision].
  eexists. eexists. split; [reflexivity|]. split; [reflexivity|].
  set (ds := if has_negative r then 1 else 0).
  assert (Hds : 0 <= ds <= 1) by (unfold ds; destruct (has_negative r); lia).
  set (dp := if 0 <? - min_exponent r then 1 else 0).
  assert (Hdp : 0 <= dp <= 1) by (unfold dp; destruct (0 <? - min_exponent r); lia).
  split; [lia|].
  rewrite format_f_unfold.
  assert (Hprec : - Z.of_nat (Z.to_nat (- min_exponent r)) <= exponent n) by lia.
  pose proof (fixed_parts_exact n _ Hprec) as Hparts. cbv zeta in Hparts.
  destruct (fixed_parts (rescale n (- Z.of_nat (Z.to_nat (- min_exponent r))))) as [i f].
  destruct Hparts as (_ & _ & Hf & Hi & _).
  rewrite length_rjust, !length_app, length_digits_str, length_frac_str, Hf.
  assert (Hsg : Z.of_nat (length (sign_str (0 <? ds) n)) = ds).
  { unfold sign_str, ds. destruct (sign n).
    - rewrite Hsign by reflexivity. reflexivity.
    - destruct (has_negative r); reflexivity. }
  assert (Hil : 1 <= Z.of_nat (length i) <= Z.max (max_adjusted r) 0 + 1)
    by (destruct (dec_is_zero n); lia).
  assert (Hfr : Z.of_nat (match Z.to_nat (- min_exponent r) with
                          | O => O | S k => S (S k) end)
                = dp + - min_exponent r).
  { unfold dp. destruct (0 <? - min_exponent r) eqn:E.
    - apply Z.ltb_lt in E. destruct (Z.to_nat (- min_exponent r)) eqn:E'; lia.
    - apply Z.ltb_ge in E. replace (Z.to_nat (- min_exponent r)) with O by lia. lia. }
  lia.
Qed.

(** An empty cell is formatted to as many spaces. *)
Lemma decimal_format_none r :
  bounded r ->
  exists w,
    format (prepare r) None = Ok (spaces (Z.to_nat w)) /\
    width (prepare r) = Some w /\ 0 < w.
Proof.
  intros [Hmax Hmin]. unfold format, prepare, width. cbn [empty total_width].
  eexists. split; [reflexivity|]. split; [reflexivity|].
  destruct (has_negative r); destruct (0 <? - min_exponent r); lia.
Qed.

End DecimalRendererFacts.

(** ** The position and inventory renderers *)

Section PositionRendererFacts.

Import PositionRenderer.

Lemma pos_bounded_init : pos_bounded init.
Proof. split; apply bounded_init. Qed.

Lemma pos_bounded_update r c : pos_bounded r -> pos_bounded (update r c).
Proof.
  intros [Hu Hc]. destruct c as [pos|]; [|now split].
  unfold update, pos_bounded.
  destruct (cost (lot pos)); cbn [units_rdr cost_rdr]; split;
    try apply bounded_update; assumption.
Qed.

Lemma pos_covers_update_self r pos : pos_covers (update r (Some pos)) pos.
Proof.
  unfold pos_covers, update.
  destruct (cost (lot pos)) as [c|] eqn:Hc;
    cbn [units_rdr cost_rdr units_ccylen cost_ccylen];
    (split; [apply covers_update_self|]); (split; [lia|]); [|exact I].
  split; [apply covers_update_self|lia].
Qed.

Lemma pos_covers_update_keep r c pos :
  pos_covers r pos -> pos_covers (update r c) pos.
Proof.
  intros H. destruct c as [p|]; [|exact H].
  destruct H as (Hu & Hl & Hc). unfold pos_covers, update.
  destruct (cost (lot p)) as [c|];
    cbn [units_rdr cost_rdr units_ccylen cost_ccylen].
  - split; [now apply covers_update_keep|]. split; [lia|].
    destruct (cost (lot pos)); [|exact I].
    destruct Hc as [Hc1 Hc2]. split; [now apply covers_update_keep|lia].
  - split; [now apply covers_update_keep|]. split; [lia|exact Hc].
Qed.

Lemma fold_pos_update_invariants (ps : list Position) : forall r,
  pos_bounded r ->
  let r' := fold_left (fun self p => update self (Some p)) ps r in
  pos_bounded r' /\
  (forall p, pos_covers r p -> pos_covers r' p) /\
  Forall (pos_covers r') ps.
Proof.
  induction ps as [|q ps IH]; intros r Hb; cbn [fold_left].
  - split; [exact Hb|]. split; [intros p Hp; exact Hp|constructor].
  - destruct (IH (update r (Some q)) (pos_bounded_update r (Some q) Hb))
      as (Hb' & Hkeep & Hall).
    split; [exact Hb'|]. split.
    + intros p Hp. apply Hkeep. now apply pos_covers_update_keep.
    + constructor; [|exact Hall]. apply Hkeep, pos_covers_update_self.
Qed.

Lemma format_field_nil w : format_field w None [] = spaces w.
Proof. unfold format_field, ljust. cbn [length app]. now rewrite Nat.sub_0_r. Qed.

(** [prepare] when no cost currency was seen: the cost field is off. *)
Lemma prepare_cost_off r :
  cost_ccylen r = O ->
  exists r',
    prepare r = Ok r' /\
    units_rdr r' = DecimalRenderer.prepare (units_rdr r) /\
    cost_rdr r' = DecimalRenderer.prepare (cost_rdr r) /\
    units_ccylen r' = units_ccylen r /\
    cost_ccylen r' = O /\
    fmt_cost r' = None /\
    (forall a b, attr_format (fmt_nocost r') [Line a; Line b]
                 = Ok (units_text r a b)) /\
    empty r' = Some (units_text r [] []).
Proof.
  intros H0. unfold prepare. rewrite H0. cbn [Nat.eqb tformat bind].
  eexists. split; [reflexivity|]. cbn.
  repeat split; try assumption.
  - intros a b. unfold units_text, units_width. now rewrite !app_nil_r.
  - unfold units_text, units_width. now rewrite !app_nil_r.
Qed.

(** [prepare] when some cost currency was seen: the cost field is on. *)
Lemma prepare_cost_on r :
  cost_ccylen r <> O ->
  exists r',
    prepare r = Ok r' /\
    units_rdr r' = DecimalRenderer.prepare (units_rdr r) /\
    cost_rdr r' = DecimalRenderer.prepare (cost_rdr r) /\
    units_ccylen r' = units_ccylen r /\
    cost_ccylen r' = cost_ccylen r /\
    (forall a b c d, attr_format (fmt_cost r') [Line a; Line b; Line c; Line d]
                     = Ok (units_text r a b ++ lit " " ++ cost_text r c d)) /\
    (forall a b, attr_format (fmt_nocost r') [Line a; Line b]
                 = Ok (units_text r a b ++ lit " " ++ cost_blank r)) /\
    empty r' = Some (units_text r [] [] ++ lit " " ++ cost_blank r).
Proof.
  intros H0. unfold prepare.
  destruct (Nat.eqb (cost_ccylen r) 0) eqn:E; [apply Nat.eqb_eq in E; contradiction|].
  cbn [tformat bind app].
  eexists. split; [reflexivity|]. cbn [units_rdr cost_rdr units_ccylen cost_ccylen
                                       fmt_cost fmt_nocost empty attr_format].
  repeat split.
  - intros a b c d. cbn [tformat bind app]. unfold units_text, cost_text, units_width, cost_width.
    now rewrite <- !app_assoc, ?app_nil_r.
  - intros a b. cbn [tformat bind app].
    unfold units_text, cost_blank, cost_text, units_width, cost_width.
    now rewrite <- !app_assoc, ?app_nil_r.
  - unfold units_text, cost_blank, cost_text, units_width, cost_width.
    now rewrite <- !app_assoc, ?app_nil_r.
Qed.

Lemma length_units_text r a b :
  (length a <= units_width r)%nat -> (length b <= units_ccylen r)%nat ->
  length (units_text r a b) = (units_width r + 1 + units_ccylen r)%nat.
Proof.
  intros Ha Hb. unfold units_text.
  rewrite !length_app, !length_format_field_fit by assumption. cbn [lit list_ascii_of_string length]. lia.
Qed.

Lemma length_cost_text r a b :
  (length a <= cost_width r)%nat -> (length b <= cost_ccylen r)%nat ->
  length (cost_text r a b) = (1 + cost_width r + 1 + cost_ccylen r + 1)%nat.
Proof.
  intros Ha Hb. unfold cost_text.
  rewrite !length_app, !length_format_field_fit by assumption. cbn [lit list_ascii_of_string length]. lia.
Qed.

Lemma blank_units_text r : blank (units_text r [] []).
Proof.
  unfold units_text. rewrite !format_field_nil.
  repeat apply blank_app; try apply blank_spaces. repeat constructor.
Qed.

Lemma length_cost_blank r : length (cost_blank r) = length (cost_text r [] []).
Proof. apply length_spaces. Qed.

(** The string the units renderer gives for a number it has seen. *)
Lemma units_format_width r pos :
  pos_bounded r -> pos_covers r pos ->
  exists s,
    DecimalRenderer.format (DecimalRenderer.prepare (units_rdr r)) (Some (number pos)) = Ok s /\
    length s = units_width r.
Proof.
  intros [Hb _] (Hc & _).
  destruct (decimal_format_width _ _ Hb Hc) as (s & w & Hs & Hw & _ & Hlen).
  exists s. split; [exact Hs|]. unfold units_width. rewrite Hw. cbn. lia.
Qed.

Lemma cost_format_width r c :
  pos_bounded r -> covers (cost_rdr r) (a_number c) ->
  exists s,
    DecimalRenderer.format (DecimalRenderer.prepare (cost_rdr r)) (Some (a_number c)) = Ok s /\
    length s = cost_width r.
Proof.
  intros [_ Hb] Hc.
  destruct (decimal_format_width _ _ Hb Hc) as (s & w & Hs & Hw & _ & Hlen).
  exists s. split; [exact Hs|]. unfold cost_width. rewrite Hw. cbn. lia.
Qed.

(** Every position the renderer has seen is formatted to one string, as
    long as the string of the empty cell, which is blank. *)
Lemma format_position_width r r' pos :
  pos_bounded r -> pos_covers r pos -> prepare r = Ok r' ->
  exists s e,
    format_position r' pos = Ok s /\
    empty r' = Some e /\ blank e /\
    length s = length e.
Proof.
  intros Hb Hc Hp.
  destruct (units_format_width r pos Hb Hc) as (su & Hsu & Hlu).
  destruct Hc as (_ & Hccy & Hcost).
  destruct (Nat.eq_dec (cost_ccylen r) 0) as [H0|H0].
  - destruct (prepare_cost_off r H0) as (r2 & Hp2 & Hu & _ & _ & Hcc & _ & Hfmt & He).
    rewrite Hp in Hp2. injection Hp2 as <-.
    unfold format_position. rewrite Hcc, Hu, Hsu. cbn [Nat.eqb bind].
    rewrite Hfmt, He. eexists. eexists. split; [reflexivity|]. split; [reflexivity|].
    split; [apply blank_units_text|].
    rewrite !length_units_text; cbn [length]; lia.
  - destruct (prepare_cost_on r H0) as (r2 & Hp2 & Hu & Hcr & _ & Hcc & Hfc & Hfn & He).
    rewrite Hp in Hp2. injection Hp2 as <-.
    unfold format_position. rewrite Hcc, Hu, Hsu, Hcr.
    destruct (Nat.eqb (cost_ccylen r) 0) eqn:E; [apply Nat.eqb_eq in E; contradiction|].
    assert (Hblank : blank (units_text r [] [] ++ lit " " ++ cost_blank r)).
    { apply blank_app; [apply blank_units_text|].
      apply blank_app; [repeat constructor|apply blank_spaces]. }
    destruct (cost (lot pos)) as [c|].
    + destruct Hcost as [Hcc1 Hcc2].
      destruct (cost_format_width r c Hb Hcc1) as (sc & Hsc & Hlc).
      rewrite Hsc. cbn [bind]. rewrite Hfc, He.
      eexists. eexists. split; [reflexivity|]. split; [reflexivity|].
      split; [exact Hblank|].
      rewrite !length_app, !length_units_text, length_cost_blank, !length_cost_text;
        cbn [length]; lia.
    + cbn [bind]. rewrite Hfn, He.
      eexists. eexists. split; [reflexivity|]. split; [reflexivity|].
      split; [exact Hblank|].
      rewrite !length_app, !length_units_text; cbn [length]; lia.
Qed.

(** Every inventory whose positions the renderer has seen is formatted to
    one string for each position, each of the width of the column. *)
Lemma format_positions_width r r' inv :
  pos_bounded r -> Forall (pos_covers r) inv -> prepare r = Ok r' ->
  exists strings e,
    InventoryRenderer.format_positions r' inv = Ok strings /\
    length strings = length inv /\
    empty r' = Some e /\
    Forall (fun s => length s = length e) strings.
Proof.
  intros Hb Hall Hp. induction Hall as [|pos inv Hpos Hall IH].
  - destruct (Nat.eq_dec (cost_ccylen r) 0) as [H0|H0].
    + destruct (prepare_cost_off r H0) as (r2 & Hp2 & _ & _ & _ & _ & _ & _ & He).
      rewrite Hp in Hp2. injection Hp2 as <-.
      exists [], (units_text r [] []). cbn. auto.
    + destruct (prepare_cost_on r H0) as (r2 & Hp2 & _ & _ & _ & _ & _ & _ & He).
      rewrite Hp in Hp2. injection Hp2 as <-.
      eexists [], _. cbn. eauto.
  - destruct IH as (strings & e & Hs & Hlen & He & Hw).
    destruct (format_position_width r r' pos Hb Hpos Hp) as (s & e' & Hfs & He' & _ & Hl).
    rewrite He in He'. injection He' as <-.
    exists (s :: strings), e. cbn [InventoryRenderer.format_positions].
    rewrite Hfs, Hs. cbn [bind length]. repeat split; auto.
Qed.

End PositionRendererFacts.

(** ** Columns *)

Section ColumnFacts.

Lemma rdr_bounded_new dt : rdr_bounded (RENDERERS dt).
Proof.
  destruct dt; cbn [RENDERERS rdr_bounded];
    auto using bounded_init, pos_bounded_init.
Qed.

Lemma inventory_update_invariants p inv :
  pos_bounded p ->
  pos_bounded (InventoryRenderer.update p inv) /\
  (forall x, pos_covers p x -> pos_covers (InventoryRenderer.update p inv) x) /\
  (forall l, inv = Some l -> Forall (pos_covers (InventoryRenderer.update p inv)) l).
Proof.
  intros Hb. destruct inv as [l|]; cbn [InventoryRenderer.update].
  - destruct (fold_pos_update_invariants l p Hb) as (H1 & H2 & H3).
    split; [exact H1|]. split; [exact H2|]. intros l' [= <-]. exact H3.
  - split; [exact Hb|]. split; [auto|]. intros l' [=].
Qed.

Lemma Ok_inj {A} (a b : A) : Ok a = Ok b -> a = b.
Proof. now intros [= ->]. Qed.

(** Inverts [update r v = Ok r'] for a renderer and a value that are known
    by their constructors. *)
Ltac invert_update H :=
  match type of H with
  | update ?r ?v = Ok ?r' =>
      let e := eval cbv beta iota delta [update] in (update r v) in
      change (e = Ok r') in H;
      first [discriminate H | apply Ok_inj in H; subst r']
  end.

Lemma update_bounded r v r' :
  rdr_bounded r -> update r v = Ok r' -> rdr_bounded r'.
Proof.
  intros Hb Hu.
  destruct r, v; invert_update Hu; cbn [rdr_bounded] in *;
    try exact I; try exact Hb;
    try (apply bounded_update; exact Hb);
    try (apply pos_bounded_update; exact Hb).
  all: apply inventory_update_invariants; exact Hb.
Qed.

Lemma update_seen_self r v r' :
  rdr_bounded r -> update r v = Ok r' -> seen r' v.
Proof.
  intros Hb Hu.
  destruct r, v; invert_update Hu; cbn [seen]; try exact I.
  - cbn. lia.
  - apply covers_update_self.
  - apply pos_covers_update_self.
  - now apply (inventory_update_invariants r (Some inv) Hb).
Qed.

Lemma update_seen_keep r v r' x :
  rdr_bounded r -> update r v = Ok r' -> seen r x -> seen r' x.
Proof.
  intros Hb Hu Hx.
  destruct r, v; invert_update Hu;
    destruct x; cbn [seen] in *; try exact I; try exact Hx.
  - cbn. lia.
  - now apply covers_update_keep.
  - now apply pos_covers_update_keep.
  - eapply Forall_impl; [|exact Hx].
    intros a Ha. now apply (inventory_update_invariants r (Some inv) Hb).
Qed.

Lemma length_strftime_ymd d : length (strftime_ymd d) = 10%nat.
Proof. reflexivity. Qed.

Lemma string_format s x :
  StringRenderer.format (StringRenderer.prepare s) x
  = Ok (format_field (StringRenderer.maxlen s) (Some (StringRenderer.maxlen s))
          (match x with None => [] | Some y => y end)).
Proof.
  unfold StringRenderer.format, StringRenderer.prepare.
  cbn [StringRenderer.fmt StringRenderer.maxlen tformat bind].
  now rewrite app_nil_r.
Qed.

(** Unfolds the dispatch of [format] on a renderer and a value that are
    known by their constructors. *)
Ltac unfold_format H :=
  match type of H with
  | format ?r ?v = ?c =>
      let e := eval cbv beta iota delta [format] in (format r v) in
      change (e = c) in H
  end.

Lemma bind_Ok_inv {A B} (r : result A) (k : A -> result B) b :
  (x <- r ;; k x) = Ok b -> exists a, r = Ok a /\ k a = Ok b.
Proof. destruct r as [a|e]; cbn; [eauto|discriminate]. Qed.

(** Every value a renderer has seen is formatted, after [prepare], to lines
    of the width of the column. *)
Lemma column_format_width r r' v c :
  rdr_bounded r -> seen r v -> prepare r = Ok r' -> format r' v = Ok c ->
  exists w,
    width r' = Ok (Some w) /\ 0 <= w /\
    Forall (fun s => Z.of_nat (length s) = w) (cell_lines c) /\
    proper_cell c.
Proof.
  intros Hb Hs Hp Hf. destruct r as [s|d|d|p|p]; cbn [prepare] in Hp.
  - (* strings *)
    apply Ok_inj in Hp. subst r'. exists (Z.of_nat (StringRenderer.maxlen s)).
    split; [reflexivity|]. split; [lia|].
    destruct v; unfold_format Hf; try discriminate Hf;
      rewrite string_format in Hf; cbn [bind] in Hf; apply Ok_inj in Hf; subst c;
      (split; [|exact I]); (constructor; [|constructor]);
      now rewrite length_format_field_trunc.
  - (* decimal numbers *)
    apply Ok_inj in Hp. subst r'. cbn [rdr_bounded] in Hb.
    destruct v; unfold_format Hf; try discriminate Hf;
      apply bind_Ok_inv in Hf as (x & Hx & Hf); apply Ok_inj in Hf; subst c.
    + destruct (decimal_format_none d Hb) as (w & He & Hw & Hpos).
      rewrite He in Hx. apply Ok_inj in Hx. subst x. exists w.
      split; [cbn [width]; now rewrite Hw|]. split; [lia|]. split; [|exact I].
      constructor; [|constructor]. rewrite length_spaces. lia.
    + cbn [seen] in Hs.
      destruct (decimal_format_width d d0 Hb Hs) as (y & w & Hy & Hw & Hpos & Hlen).
      rewrite Hy in Hx. apply Ok_inj in Hx. subst x. exists w.
      split; [cbn [width]; now rewrite Hw|]. split; [lia|]. split; [|exact I].
      constructor; [exact Hlen|constructor].
  - (* dates *)
    apply Ok_inj in Hp. subst r'. exists 10. split; [reflexivity|]. split; [lia|].
    destruct v; unfold_format Hf; try discriminate Hf; apply Ok_inj in Hf; subst c;
      (split; [|exact I]); (constructor; [|constructor]).
    + cbn [DateTimeRenderer.format rdr_bounded] in *. now rewrite Hb.
    + cbn [DateTimeRenderer.format]. now rewrite length_strftime_ymd.
  - (* positions *)
    cbn [rdr_bounded] in Hb.
    apply bind_Ok_inv in Hp as (p' & Hp & Hr). apply Ok_inj in Hr. subst r'.
    destruct v; unfold_format Hf; try discriminate Hf.
    cbn [seen] in Hs. unfold PositionRenderer.format in Hf.
    destruct (format_position_width p p' p0 Hb Hs Hp) as (s & e & Hfs & He & _ & Hlen).
    rewrite Hfs, He in Hf. cbn [bind strings_result] in Hf. apply Ok_inj in Hf. subst c.
    exists (Z.of_nat (length e)). cbn [width]. unfold PositionRenderer.width. rewrite He.
    split; [reflexivity|]. split; [lia|]. split; [|exact I].
    constructor; [now rewrite Hlen|constructor].
  - (* inventories *)
    cbn [rdr_bounded] in Hb.
    apply bind_Ok_inv in Hp as (p' & Hp & Hr). apply Ok_inj in Hr. subst r'.
    destruct v; unfold_format Hf; try discriminate Hf.
    cbn [seen] in Hs. unfold InventoryRenderer.format in Hf.
    destruct (format_positions_width p p' inv Hb Hs Hp) as (strings & e & Hfs & _ & He & Hall).
    rewrite Hfs, He in Hf. cbn [bind] in Hf.
    exists (Z.of_nat (length e)). cbn [width].
    unfold InventoryRenderer.width, PositionRenderer.width. rewrite He.
    split; [reflexivity|]. split; [lia|].
    assert (Hall' : Forall (fun s => Z.of_nat (length s) = Z.of_nat (length e)) strings).
    { eapply Forall_impl; [|exact Hall]. cbn. intros a ->. reflexivity. }
    destruct strings as [|s1 [|s2 strings]]; cbn [strings_result] in Hf;
      apply Ok_inj in Hf; subst c; cbn [cell_lines wrap proper_cell].
    + split; [|exact I]. constructor; [reflexivity|constructor].
    + split; [exact Hall'|exact I].
    + split; [exact Hall'|]. cbn [length]. lia.
Qed.

End ColumnFacts.

(** ** Rows: renderers and cells side by side *)

Section RowFacts.

Lemma zip_all_impl {A B} (P Q : A -> B -> Prop) la lb :
  (forall a b, P a b -> Q a b) -> zip_all P la lb -> zip_all Q la lb.
Proof. intros H. induction 1; constructor; auto. Qed.

Lemma grows_refl r : rdr_bounded r -> grows r r.
Proof. intros H. split; auto. Qed.

Lemma grows_trans r1 r2 r3 : grows r1 r2 -> grows r2 r3 -> grows r1 r3.
Proof. intros [_ H1] [H2 H3]. split; auto. Qed.

Lemma Forall2_grows_refl rs : Forall rdr_bounded rs -> Forall2 grows rs rs.
Proof. induction 1; constructor; auto using grows_refl. Qed.

Lemma Forall2_grows_trans rs1 rs2 rs3 :
  Forall2 grows rs1 rs2 -> Forall2 grows rs2 rs3 -> Forall2 grows rs1 rs3.
Proof.
  intros H. revert rs3. induction H; intros rs3 H3; inversion H3; subst;
    constructor; eauto using grows_trans.
Qed.

Lemma Forall2_grows_bounded rs rs' :
  Forall2 grows rs rs' -> Forall rdr_bounded rs'.
Proof. induction 1 as [|r r' rs rs' [Hb _]]; constructor; auto. Qed.

Lemma zip_all_seen_grows rs rs' row :
  Forall2 grows rs rs' -> zip_all seen rs row -> zip_all seen rs' row.
Proof.
  intros H. revert row. induction H as [|r r' rs rs' [_ Hg] _ IH]; intros row Hz.
  - constructor.
  - inversion Hz; subst; constructor; auto.
Qed.

Lemma update_row_grows rs : forall row rs',
  Forall rdr_bounded rs -> update_row rs row = Ok rs' ->
  Forall2 grows rs rs' /\ zip_all seen rs' row.
Proof.
  induction rs as [|r rs IH]; intros row rs' Hb Hu.
  - cbn in Hu. apply Ok_inj in Hu. subst rs'. split; constructor.
  - destruct row as [|v row].
    + cbn in Hu. apply Ok_inj in Hu. subst rs'.
      split; [now apply Forall2_grows_refl|constructor].
    + cbn [update_row] in Hu. inversion Hb as [|? ? Hr Hrs]; subst.
      apply bind_Ok_inv in Hu as (r1 & Hr1 & Hu).
      apply bind_Ok_inv in Hu as (rs1 & Hrs1 & Hu).
      apply Ok_inj in Hu. subst rs'.
      destruct (IH row rs1 Hrs Hrs1) as [Hg Hz].
      split; constructor; auto.
      * split; [eapply update_bounded; eauto|].
        intros x Hx. eapply update_seen_keep; eauto.
      * eapply update_seen_self; eauto.
Qed.

Lemma update_rows_grows rows : forall rs rs',
  Forall rdr_bounded rs -> update_rows rs rows = Ok rs' ->
  Forall2 grows rs rs' /\ Forall (zip_all seen rs') rows.
Proof.
  induction rows as [|row rows IH]; intros rs rs' Hb Hu.
  - cbn in Hu. apply Ok_inj in Hu. subst rs'.
    split; [now apply Forall2_grows_refl|constructor].
  - cbn [update_rows] in Hu. apply bind_Ok_inv in Hu as (rs1 & Hrs1 & Hu).
    destruct (update_row_grows rs row rs1 Hb Hrs1) as [Hg1 Hz1].
    destruct (IH rs1 rs' (Forall2_grows_bounded _ _ Hg1) Hu) as [Hg2 Hall].
    split; [eapply Forall2_grows_trans; eauto|].
    constructor; [|exact Hall]. eapply zip_all_seen_grows; eauto.
Qed.

Lemma prepare_all_Forall2 rs : forall rs',
  prepare_all rs = Ok rs' -> Forall2 (fun r r' => prepare r = Ok r') rs rs'.
Proof.
  induction rs as [|r rs IH]; intros rs' Hp; cbn [prepare_all] in Hp.
  - apply Ok_inj in Hp. subst rs'. constructor.
  - apply bind_Ok_inv in Hp as (r1 & Hr1 & Hp).
    apply bind_Ok_inv in Hp as (rs1 & Hrs1 & Hp).
    apply Ok_inj in Hp. subst rs'. constructor; auto.
Qed.

Lemma zip_all_ready rs rs' row :
  Forall rdr_bounded rs ->
  Forall2 (fun r r' => prepare r = Ok r') rs rs' ->
  zip_all seen rs row -> zip_all ready rs' row.
Proof.
  intros Hb Hp. revert row.
  induction Hp as [|r r' rs rs' Hr _ IH]; intros row Hz.
  - constructor.
  - inversion Hb; subst. inversion Hz; subst; constructor; auto.
    exists r. auto.
Qed.

(** [get_renderers] returns one prepared renderer for each column, and
    every cell of every row was seen by the renderer of its column. *)
Lemma get_renderers_ready result_types result_rows renderers :
  get_renderers result_types result_rows = Ok renderers ->
  length renderers = length result_types /\
  Forall (zip_all ready renderers) result_rows.
Proof.
  unfold get_renderers. intros H.
  apply bind_Ok_inv in H as (rs & Hu & Hp).
  set (rs0 := map (fun nt => RENDERERS (snd nt)) result_types) in *.
  assert (Hb0 : Forall rdr_bounded rs0).
  { apply Forall_forall. intros r Hr. apply in_map_iff in Hr as (nt & <- & _).
    apply rdr_bounded_new. }
  destruct (update_rows_grows _ _ _ Hb0 Hu) as [Hg Hall].
  apply prepare_all_Forall2 in Hp.
  split.
  - rewrite <- (Forall2_length Hp), <- (Forall2_length Hg).
    unfold rs0. apply length_map.
  - eapply Forall_impl; [|exact Hall].
    intros row Hz. apply (zip_all_ready rs renderers row); auto.
    eapply Forall2_grows_bounded; eauto.
Qed.

End RowFacts.

(** ** Formatted rows *)

Section FormatFacts.

Lemma has_width_intro r w : width r = Ok (Some w) -> 0 <= w -> has_width r.
Proof.
  intros Hw Hpos. unfold has_width, col_width. rewrite Hw.
  now rewrite Z2Nat.id.
Qed.

Lemma prepare_has_width r r' :
  rdr_bounded r -> prepare r = Ok r' -> has_width r'.
Proof.
  intros Hb Hp. destruct r as [s|d|d|p|p]; cbn [prepare] in Hp.
  - apply Ok_inj in Hp. subst r'.
    apply (has_width_intro _ (Z.of_nat (StringRenderer.maxlen s))); [reflexivity|lia].
  - apply Ok_inj in Hp. subst r'. cbn [rdr_bounded] in Hb.
    destruct (decimal_format_none d Hb) as (w & _ & Hw & Hpos).
    apply (has_width_intro _ w); [cbn [width]; now rewrite Hw|lia].
  - apply Ok_inj in Hp. subst r'. apply (has_width_intro _ 10); [reflexivity|lia].
  - apply bind_Ok_inv in Hp as (p' & Hp & Hr). apply Ok_inj in Hr. subst r'.
    destruct (Nat.eq_dec (PositionRenderer.cost_ccylen p) 0) as [H0|H0].
    + destruct (prepare_cost_off p H0) as (r2 & Hp2 & _ & _ & _ & _ & _ & _ & He).
      rewrite Hp in Hp2. apply Ok_inj in Hp2. subst r2.
      eapply has_width_intro; [cbn [width]; unfold PositionRenderer.width; now rewrite He|lia].
    + destruct (prepare_cost_on p H0) as (r2 & Hp2 & _ & _ & _ & _ & _ & _ & He).
      rewrite Hp in Hp2. apply Ok_inj in Hp2. subst r2.
      eapply has_width_intro; [cbn [width]; unfold PositionRenderer.width; now rewrite He|lia].
  - apply bind_Ok_inv in Hp as (p' & Hp & Hr). apply Ok_inj in Hr. subst r'.
    unfold InventoryRenderer.prepare in Hp.
    destruct (Nat.eq_dec (PositionRenderer.cost_ccylen p) 0) as [H0|H0].
    + destruct (prepare_cost_off p H0) as (r2 & Hp2 & _ & _ & _ & _ & _ & _ & He).
      rewrite Hp in Hp2. apply Ok_inj in Hp2. subst r2.
      eapply has_width_intro;
        [cbn [width]; unfold InventoryRenderer.width, PositionRenderer.width; now rewrite He|lia].
    + destruct (prepare_cost_on p H0) as (r2 & Hp2 & _ & _ & _ & _ & _ & _ & He).
      rewrite Hp in Hp2. apply Ok_inj in Hp2. subst r2.
      eapply has_width_intro;
        [cbn [width]; unfold InventoryRenderer.width, PositionRenderer.width; now rewrite He|lia].
Qed.

Lemma ready_fits r' v c : ready r' v -> format r' v = Ok c -> fits r' c.
Proof.
  intros (r & Hb & Hs & Hp) Hf.
  destruct (column_format_width r r' v c Hb Hs Hp Hf) as (w & Hw & Hpos & Hall & Hc).
  split; [|exact Hc]. unfold col_width. rewrite Hw.
  eapply Forall_impl; [|exact Hall]. cbn. intros s Hs'. lia.
Qed.

(** The cells of a formatted row fit their columns, and there are as many as
    [zip(row, renderers)] has pairs. *)
Lemma format_row_fits rs : forall row exp_row,
  zip_all ready rs row -> format_row rs row = Ok exp_row ->
  zip_all fits rs exp_row /\
  Forall proper_cell exp_row /\
  length exp_row = Nat.min (length rs) (length row).
Proof.
  induction rs as [|r rs IH]; intros row exp_row Hz Hf.
  - cbn in Hf. apply Ok_inj in Hf. subst exp_row.
    split; [constructor|]. split; [constructor|reflexivity].
  - destruct row as [|v row].
    + cbn in Hf. apply Ok_inj in Hf. subst exp_row.
      split; [constructor|]. split; [constructor|reflexivity].
    + cbn [format_row] in Hf. inversion Hz as [| |? ? ? ? Hr Hz']; subst.
      apply bind_Ok_inv in Hf as (c & Hc & Hf).
      apply bind_Ok_inv in Hf as (rest & Hrest & Hf).
      apply Ok_inj in Hf. subst exp_row.
      destruct (IH row rest Hz' Hrest) as (H2 & Hp & Hlen).
      pose proof (ready_fits r v c Hr Hc) as Hfit.
      split; [constructor; assumption|].
      split; [constructor; [apply Hfit|exact Hp]|].
      cbn [length]. now rewrite Hlen.
Qed.

(** The fields of a physical row are not wider than their columns. *)
Lemma fields_fit rs exp_row k :
  zip_all fits rs exp_row ->
  Forall (fun wf => length (snd wf) <= fst wf)%nat
         (combine (map col_width rs)
                  (map (fun c => nth k (cell_lines c) []) exp_row)).
Proof.
  induction 1 as [exp_row|rs|r c rs exp_row [Hall _] _ IH].
  - constructor.
  - cbn [map]. rewrite combine_nil. constructor.
  - cbn [map combine]. constructor; [|exact IH]. cbn [fst snd].
    destruct (nth_in_or_default k (cell_lines c) []) as [Hin|Hd].
    + rewrite Forall_forall in Hall. rewrite (Hall _ Hin). lia.
    + rewrite Hd. cbn. lia.
Qed.

End FormatFacts.

(** ** Expansion of a row into physical rows *)

Section ExpandFacts.

Lemma row_max_lines_acc exp_row : forall a,
  (1 <= a)%nat ->
  fold_left (fun max_lines exp_lines =>
               match exp_lines with
               | Lines l => Nat.max max_lines (length l)
               | Line _ => max_lines
               end) exp_row a
  = Nat.max a (list_max (map line_count exp_row)).
Proof.
  induction exp_row as [|c exp_row IH]; intros a Ha; cbn [fold_left map list_max fold_right].
  - lia.
  - destruct c as [s|l]; rewrite IH by lia; unfold line_count at 2 in |- *;
      cbn [cell_lines wrap length]; fold (list_max (map line_count exp_row)); lia.
Qed.

Lemma row_max_lines_spec exp_row :
  row_max_lines exp_row = Nat.max 1 (list_max (map line_count exp_row)).
Proof. unfold row_max_lines. now apply row_max_lines_acc. Qed.

Lemma append_lines_map {K} (g : K -> list cell) (h : K -> str) (ks : list K) :
  append_lines (map g ks) (map h ks) = map (fun k => g k ++ [Line (h k)]) ks.
Proof.
  induction ks as [|k ks IH]; [reflexivity|].
  cbn [map append_lines]. now rewrite IH.
Qed.

Lemma fold_append_lines n (evs : list (list str)) : forall g : nat -> list cell,
  fold_left (fun str_lines exp_value => append_lines str_lines (filled n exp_value))
            evs (map g (seq 0 n))
  = map (fun k => g k ++ map (fun ev => Line (nth k ev [])) evs) (seq 0 n).
Proof.
  induction evs as [|ev evs IH]; intros g; cbn [fold_left map].
  - apply map_ext. intros k. now rewrite app_nil_r.
  - change (filled n ev) with (map (fun index => nth index ev []) (seq 0 n)).
    rewrite append_lines_map, IH.
    apply map_ext. intros k. now rewrite <- app_assoc.
Qed.

Lemma repeat_nil_map {A} n : repeat (@nil A) n = map (fun _ => []) (seq 0 n).
Proof.
  generalize 0%nat. induction n as [|n IH]; intros s; [reflexivity|].
  cbn [repeat seq map]. now rewrite (IH (S s)).
Qed.

Lemma single_line_cells exp_row :
  Forall proper_cell exp_row ->
  (list_max (map line_count exp_row) <= 1)%nat ->
  exp_row = map (fun c => Line (nth 0 (cell_lines c) [])) exp_row.
Proof.
  induction 1 as [|c exp_row Hc _ IH]; intros Hmax; [reflexivity|].
  cbn [map list_max fold_right] in *. fold (list_max (map line_count exp_row)) in Hmax.
  rewrite <- IH by lia. destruct c as [s|l]; [reflexivity|].
  unfold line_count in Hmax. cbn [proper_cell cell_lines wrap] in *. lia.
Qed.

(** [expand_row] builds the physical rows of the specification. *)
Lemma expand_row_spec exp_row :
  Forall proper_cell exp_row ->
  expand_row exp_row = map (map Line) (physical_rows exp_row).
Proof.
  intros Hp. unfold expand_row, physical_rows.
  rewrite row_max_lines_spec.
  set (n := Nat.max 1 (list_max (map line_count exp_row))).
  destruct (Nat.eqb n 1) eqn:E.
  - apply Nat.eqb_eq in E. rewrite E. cbn [seq map].
    rewrite map_map. f_equal. apply single_line_cells; [exact Hp|lia].
  - rewrite repeat_nil_map, fold_append_lines, map_map.
    apply map_ext. intros k. cbn [app]. now rewrite !map_map.
Qed.

End ExpandFacts.

(** ** The lines of the table *)

Section LineFacts.

Lemma tformat_join sep tail ws : forall fields,
  (length ws <= length fields)%nat ->
  tformat (tjoin sep (map field_of ws) ++ [Lit tail]) (map Line fields)
  = Ok (join sep (padded ws fields) ++ tail).
Proof.
  induction ws as [|w ws IH]; intros fields Hlen.
  - cbn. now rewrite app_nil_r.
  - destruct fields as [|f fields]; [cbn in Hlen; lia|].
    cbn [length] in Hlen. apply le_S_n in Hlen.
    specialize (IH fields Hlen).
    destruct ws as [|w' ws].
    + cbn. now rewrite app_nil_r.
    + destruct fields as [|f' fields]; [cbn in Hlen; lia|].
      change (tjoin sep (map field_of (w :: w' :: ws)))
        with (field_of w ++ [Lit sep] ++ tjoin sep (map field_of (w' :: ws))).
      cbn [field_of app map tformat]. cbn [field_of map] in IH. rewrite IH.
      cbn [bind]. unfold padded. cbn [combine map join fst snd].
      now rewrite <- !app_assoc.
Qed.

Lemma tformat_line ws fields :
  (length ws <= length fields)%nat ->
  tformat (line_formatter (map field_of ws)) (map Line fields)
  = Ok (text_line ws fields).
Proof.
  intros Hlen. unfold line_formatter, text_line.
  cbn [app tformat]. rewrite (tformat_join _ _ ws fields Hlen). reflexivity.
Qed.

Lemma field_formats_spec rs :
  Forall has_width rs ->
  field_formats rs = Ok (map field_of (map col_width rs)).
Proof.
  induction 1 as [|r rs Hr _ IH]; [reflexivity|].
  cbn [field_formats map]. unfold field_format. rewrite Hr. cbn [bind].
  rewrite IH. cbn [bind]. now rewrite Nat2Z.id.
Qed.

Lemma dashes_spec ws : dashes (map field_of ws) = Ok (map (times "-"%char) ws).
Proof.
  induction ws as [|w ws IH]; [reflexivity|].
  cbn [map dashes field_of tformat bind]. rewrite IH. cbn [bind].
  now rewrite app_nil_r, format_field_nil, length_spaces.
Qed.

Lemma line_body_spec ws : line_body (map field_of ws) = Ok (body_of ws).
Proof. unfold line_body. now rewrite dashes_spec. Qed.

Lemma length_join sep parts :
  length (join sep parts)
  = (total_length parts + length sep * (length parts - 1))%nat.
Proof.
  induction parts as [|p parts IH]; [cbn; lia|].
  destruct parts as [|q parts]; [cbn; lia|].
  change (join sep (p :: q :: parts)) with (p ++ sep ++ join sep (q :: parts)).
  rewrite !length_app, IH. cbn [total_length length]. lia.
Qed.

Lemma total_length_padded ws : forall fields,
  (length ws <= length fields)%nat ->
  Forall (fun wf => length (snd wf) <= fst wf)%nat (combine ws fields) ->
  total_length (padded ws fields) = total_length (map (times "-"%char) ws) /\
  length (padded ws fields) = length ws.
Proof.
  induction ws as [|w ws IH]; intros fields Hlen Hall; [split; reflexivity|].
  destruct fields as [|f fields]; [cbn in Hlen; lia|].
  cbn [length] in Hlen. apply le_S_n in Hlen.
  cbn [combine] in Hall. inversion Hall as [|? ? Hf Hall']; subst.
  destruct (IH fields Hlen Hall') as [IH1 IH2].
  unfold padded in *. cbn [combine map total_length length fst snd] in *.
  rewrite IH1, IH2, length_times, length_format_field_fit by exact Hf.
  split; reflexivity.
Qed.

(** A physical row whose fields are not wider than their columns gives a
    line as long as the border lines. *)
Lemma length_text_line ws fields :
  (length ws <= length fields)%nat ->
  Forall (fun wf => length (snd wf) <= fst wf)%nat (combine ws fields) ->
  length (text_line ws fields) = length (top_line (body_of ws)).
Proof.
  intros Hlen Hall. unfold text_line, top_line, body_of.
  rewrite !length_app, !length_join.
  destruct (total_length_padded ws fields Hlen Hall) as [-> ->].
  rewrite length_map. cbn [lit list_ascii_of_string newline length]. lia.
Qed.

End LineFacts.

(** ** render_text, step by step *)

Section RenderFacts.

Lemma get_renderers_has_width result_types result_rows renderers :
  get_renderers result_types result_rows = Ok renderers ->
  Forall has_width renderers.
Proof.
  unfold get_renderers. intros H.
  apply bind_Ok_inv in H as (rs & Hu & Hp).
  set (rs0 := map (fun nt => RENDERERS (snd nt)) result_types) in *.
  assert (Hb0 : Forall rdr_bounded rs0).
  { apply Forall_forall. intros r Hr. apply in_map_iff in Hr as (nt & <- & _).
    apply rdr_bounded_new. }
  destruct (update_rows_grows _ _ _ Hb0 Hu) as [Hg _].
  apply Forall2_grows_bounded in Hg. apply prepare_all_Forall2 in Hp.
  clear Hu Hb0. induction Hp as [|r r' rs rs' Hr _ IH]; [constructor|].
  inversion Hg; subst. constructor; [eapply prepare_has_width; eauto|auto].
Qed.

Lemma format_rows_spec rs rows : forall str_rows,
  Forall (zip_all ready rs) rows ->
  format_rows rs rows = Ok str_rows ->
  exists exp_rows,
    Forall2 (formats_to rs) rows exp_rows /\
    str_rows = map (map Line) (flat_map physical_rows exp_rows).
Proof.
  induction rows as [|row rows IH]; intros str_rows Hall Hf; cbn [format_rows] in Hf.
  - apply Ok_inj in Hf. subst str_rows. exists []. split; [constructor|reflexivity].
  - inversion Hall as [|? ? Hrow Hrows]; subst.
    apply bind_Ok_inv in Hf as (exp_row & He & Hf).
    apply bind_Ok_inv in Hf as (rest & Hrest & Hf).
    apply Ok_inj in Hf. subst str_rows.
    destruct (IH rest Hrows Hrest) as (exp_rows & H2 & ->).
    destruct (format_row_fits rs row exp_row Hrow He) as (Hz & Hp & Hlen).
    exists (exp_row :: exp_rows). split.
    + constructor; [|exact H2]. split; [exact He|]. split; assumption.
    + cbn [flat_map]. rewrite map_app, (expand_row_spec exp_row Hp). reflexivity.
Qed.

Lemma tformat_join_short sep tail ws : forall fields,
  (length fields < length ws)%nat ->
  tformat (tjoin sep (map field_of ws) ++ tail) (map Line fields)
  = Raise IndexError.
Proof.
  induction ws as [|w ws IH]; intros fields Hlen; [cbn in Hlen; lia|].
  destruct fields as [|f fields].
  - destruct ws; reflexivity.
  - cbn [length] in Hlen. apply PeanoNat.lt_S_n in Hlen.
    destruct ws as [|w' ws]; [cbn in Hlen; lia|].
    change (tjoin sep (map field_of (w :: w' :: ws)))
      with (field_of w ++ [Lit sep] ++ tjoin sep (map field_of (w' :: ws))).
    cbn [field_of app map tformat]. cbn [map] in IH. rewrite (IH fields Hlen).
    reflexivity.
Qed.

Lemma tformat_line_inv ws fields line :
  tformat (line_formatter (map field_of ws)) (map Line fields) = Ok line ->
  (length ws <= length fields)%nat /\ line = text_line ws fields.
Proof.
  intros H. destruct (le_lt_dec (length ws) (length fields)) as [Hle|Hlt].
  - rewrite (tformat_line ws fields Hle) in H. apply Ok_inj in H. now split.
  - unfold line_formatter in H. cbn [app tformat] in H.
    rewrite (tformat_join_short _ _ ws fields Hlt) in H. discriminate H.
Qed.

Lemma write_rows_ok ws rows : forall f,
  Forall (fun fields => length ws <= length fields)%nat rows ->
  write_rows (line_formatter (map field_of ws)) (map (map Line) rows) f
  = (Ok tt, f ++ map (text_line ws) rows).
Proof.
  induction rows as [|fields rows IH]; intros f Hall; cbn [map write_rows].
  - now rewrite app_nil_r.
  - inversion Hall as [|? ? Hlen Hrest]; subst.
    rewrite (tformat_line ws fields Hlen), (IH _ Hrest).
    unfold write. now rewrite <- app_assoc.
Qed.

Lemma write_rows_inv ws rows : forall f u f',
  write_rows (line_formatter (map field_of ws)) (map (map Line) rows) f = (Ok u, f') ->
  Forall (fun fields => length ws <= length fields)%nat rows.
Proof.
  induction rows as [|fields rows IH]; intros f u f' H; cbn [map write_rows] in H.
  - constructor.
  - destruct (tformat (line_formatter (map field_of ws)) (map Line fields)) as [line|e] eqn:E;
      [|discriminate H].
    apply tformat_line_inv in E as [Hlen _].
    constructor; [exact Hlen|]. eapply IH; eauto.
Qed.

Lemma physical_rows_length exp_row :
  Forall (fun fields => length fields = length exp_row) (physical_rows exp_row).
Proof.
  unfold physical_rows. apply Forall_forall. intros fields Hin.
  apply in_map_iff in Hin as (k & <- & _). apply length_map.
Qed.

(** What [render_text] has computed when it starts to write. *)
Lemma render_setup_inv result_types result_rows str_rows formatter body :
  render_setup result_types result_rows = Ok (str_rows, formatter, body) ->
  exists renderers exp_rows,
    get_renderers result_types result_rows = Ok renderers /\
    length renderers = length result_types /\
    Forall2 (formats_to renderers) result_rows exp_rows /\
    str_rows = map (map Line) (flat_map physical_rows exp_rows) /\
    formatter = line_formatter (map field_of (map col_width renderers)) /\
    body = body_of (map col_width renderers).
Proof.
  unfold render_setup. intros H.
  apply bind_Ok_inv in H as (_ & _ & H).
  apply bind_Ok_inv in H as (renderers & Hg & H).
  apply bind_Ok_inv in H as (rows & Hf & H).
  rewrite (field_formats_spec _ (get_renderers_has_width _ _ _ Hg)) in H.
  cbn [bind] in H. rewrite line_body_spec in H. cbn [bind] in H.
  apply Ok_inj in H. injection H as <- <- <-.
  destruct (get_renderers_ready _ _ _ Hg) as [Hlen Hready].
  destruct (format_rows_spec _ _ _ Hready Hf) as (exp_rows & H2 & ->).
  exists renderers, exp_rows. repeat split; auto.
Qed.

End RenderFacts.

(** * The decimal width formula *)

Section WidthFormula.

Import DecimalRenderer.

Lemma fold_update_stats cells : forall r,
  let r' := fold_left update cells r in
  has_negative r' = has_negative r || existsb sign (numbers cells) /\
  max_adjusted r' = match maximum (map adjusted (numbers cells)) with
                    | Some m => Z.max (max_adjusted r) m
                    | None => max_adjusted r
                    end /\
  min_exponent r' = match minimum (map exponent (numbers cells)) with
                    | Some m => Z.min (min_exponent r) m
                    | None => min_exponent r
                    end.
Proof.
  induction cells as [|c cells IH]; intros r; cbn zeta.
  - cbn. now rewrite orb_false_r.
  - cbn [fold_left]. destruct (IH (update r c)) as (H1 & H2 & H3).
    rewrite H1, H2, H3. clear H1 H2 H3 IH.
    destruct c as [n|]; [|cbn [update numbers flat_map app]; auto].
    cbn [update numbers flat_map app map existsb maximum minimum fold_right
         has_negative max_adjusted min_exponent].
    fold (numbers cells).
    fold (maximum (map adjusted (numbers cells))).
    fold (minimum (map exponent (numbers cells))).
    repeat split.
    + destruct (sign n), (has_negative r); reflexivity.
    + destruct (maximum (map adjusted (numbers cells))); lia.
    + destruct (minimum (map exponent (numbers cells))); lia.
Qed.

Lemma numbers_all_none k : numbers (repeat None k) = [].
Proof. induction k as [|k IH]; [reflexivity|exact IH]. Qed.

(** C2. After [prepare] the width of a decimal column is sign width +
    integer digits + decimal point width + fractional digits, where the sign
    width is 1 iff some accumulated number has its sign set, the integer
    digits are max(largest adjusted exponent, 0) + 1, the fractional digits
    are minus the smallest exponent, or 0 when that is not negative, and the
    point takes 1 iff there are fractional digits; a column in which no
    number was accumulated has the width 1. *)
Theorem decimal_width_formula (cells : list (option Decimal)) (k : nat) :
  width (prepare (accumulate cells)) = Some (spec_total_width (numbers cells)) /\
  width (prepare (accumulate (repeat None k))) = Some 1.
Proof.
  assert (H : forall cs,
             width (prepare (accumulate cs)) = Some (spec_total_width (numbers cs))).
  { intros cs. unfold accumulate.
    destruct (fold_update_stats cs init) as (H1 & H2 & H3). cbv zeta in *.
    unfold width, prepare. cbn [total_width]. rewrite H1, H2, H3.
    cbn [init has_negative max_adjusted min_exponent orb].
    unfold spec_total_width, spec_decimal_point_width, spec_fractional_digits,
      spec_integer_digits, spec_sign_width.
    f_equal.
    destruct (existsb sign (numbers cs));
      destruct (maximum (map adjusted (numbers cs)));
      destruct (minimum (map exponent (numbers cs))) as [m|];
      try destruct (0 <=? m) eqn:E;
      try (apply Z.leb_le in E); try (apply Z.leb_gt in E);
      repeat match goal with
             | |- context [0 <? ?x] =>
                 let E' := fresh in
                 destruct (0 <? x) eqn:E';
                 [apply Z.ltb_lt in E'|apply Z.ltb_ge in E']
             end; lia. }
  split; [apply H|]. rewrite H, numbers_all_none. reflexivity.
Qed.

End WidthFormula.

(** * Empty cells *)

Section EmptyCells.

(** In a string, date or decimal column an empty cell is formatted to one
    blank string of the width of the column. *)
Lemma empty_cell_blank (r r' : renderer) :
  match r with RPosition _ | RInventory _ => False | _ => True end ->
  rdr_bounded r -> prepare r = Ok r' ->
  exists s, format r' VNone = Ok (Line s) /\ blank s /\ length s = col_width r'.
Proof.
  intros Hk Hb Hp. destruct r as [s|d|d|p|p]; try contradiction;
    cbn [prepare] in Hp; apply Ok_inj in Hp; subst r'.
  - eexists. split; [cbv beta iota delta [format]; rewrite string_format; reflexivity|].
    unfold format_field, ljust. cbn [firstn app length]. rewrite ?firstn_nil.
    cbn [app length]. rewrite Nat.sub_0_r.
    split; [apply blank_spaces|]. rewrite length_spaces.
    unfold col_width, width, StringRenderer.width, StringRenderer.prepare.
    cbn [StringRenderer.maxlen]. lia.
  - cbn [rdr_bounded] in Hb.
    destruct (decimal_format_none d Hb) as (w & He & Hw & Hpos).
    eexists. split; [cbv beta iota delta [format]; rewrite He; reflexivity|].
    split; [apply blank_spaces|]. rewrite length_spaces.
    unfold col_width. cbn [width]. now rewrite Hw.
  - cbn [rdr_bounded] in Hb. eexists. split; [reflexivity|].
    cbn [DateTimeRenderer.format]. rewrite Hb.
    split; [apply blank_spaces|reflexivity].
Qed.

(** C3, at the input it fails on. [PositionRenderer.format] and
    [InventoryRenderer.format] raise on an empty cell, whatever the state of
    the renderer: no blank string of the width of the column is returned. *)
Theorem format_none_raises (p : PositionRenderer.t) :
  format (RPosition p) VNone = Raise AttributeError /\
  format (RInventory p) VNone = Raise AttributeError.
Proof. split; reflexivity. Qed.

(** C1, at the input it fails on. A position column of the cells
    [1 USD] and [None]: both were passed to [update], the column is 5
    characters wide after [prepare], the position is formatted to 5
    characters, and the empty cell is not formatted at all. *)
Theorem constant_width_fails_on_none :
  let pos := mkPosition (mkLot (lit "USD") None) (mkDecimal false [D1] 0) in
  exists r1 r2 r3,
    update (RENDERERS t_Position) (VPosition pos) = Ok r1 /\
    update r1 VNone = Ok r2 /\
    prepare r2 = Ok r3 /\
    width r3 = Ok (Some 5) /\
    format r3 (VPosition pos) = Ok (Line (lit "1 USD")) /\
    format r3 VNone = Raise AttributeError.
Proof.
  cbv zeta. do 3 eexists.
  split; [reflexivity|]. split; [reflexivity|]. split; [reflexivity|].
  repeat split; reflexivity.
Qed.

(** C8. An inventory without positions is formatted, after [prepare], to
    one string, never to a list: the string of the empty cell, which is blank
    and of the width of the column. *)
Theorem empty_inventory_one_blank_line (cells : list (option Inventory)) :
  exists r' e,
    InventoryRenderer.prepare (accumulate_inventories cells) = Ok r' /\
    InventoryRenderer.format r' (Some []) = Ok (Line e) /\
    blank e /\
    InventoryRenderer.width r' = Ok (Z.of_nat (length e)).
Proof.
  set (r := accumulate_inventories cells).
  unfold InventoryRenderer.prepare, InventoryRenderer.width, InventoryRenderer.format,
    PositionRenderer.width.
  cbn [InventoryRenderer.format_positions bind strings_result].
  destruct (Nat.eq_dec (PositionRenderer.cost_ccylen r) 0) as [H0|H0].
  - destruct (prepare_cost_off r H0) as (r' & Hp & _ & _ & _ & _ & _ & _ & He).
    exists r'. eexists. rewrite He. split; [exact Hp|]. split; [reflexivity|].
    split; [apply blank_units_text|reflexivity].
  - destruct (prepare_cost_on r H0) as (r' & Hp & _ & _ & _ & _ & _ & _ & He).
    exists r'. eexists. rewrite He. split; [exact Hp|]. split; [reflexivity|].
    split; [|reflexivity].
    apply blank_app; [apply blank_units_text|].
    apply blank_app; [repeat constructor|apply blank_spaces].
Qed.

End EmptyCells.

(** * The cost field of positions and inventories *)

Section CostField.

Import PositionRenderer.

Lemma accumulate_positions_after cells :
  accumulate_positions cells = after_positions (present cells).
Proof.
  unfold accumulate_positions, after_positions. generalize init.
  induction cells as [|c cells IH]; intros r; [reflexivity|].
  cbn [fold_left present flat_map]. rewrite fold_left_app, IH.
  destruct c; reflexivity.
Qed.

Lemma accumulate_inventories_after cells :
  accumulate_inventories cells = after_positions (held cells).
Proof.
  unfold accumulate_inventories, after_positions, InventoryRenderer.init.
  generalize init.
  induction cells as [|c cells IH]; intros r; [reflexivity|].
  cbn [fold_left held flat_map]. rewrite fold_left_app, IH.
  destruct c; reflexivity.
Qed.

Lemma fold_update_cost_ccylen ps : forall r,
  cost_ccylen (fold_left (fun self p => update self (Some p)) ps r)
  = Nat.max (cost_ccylen r) (list_max (cost_labels ps)).
Proof.
  induction ps as [|p ps IH]; intros r; cbn [fold_left cost_labels flat_map].
  - cbn. lia.
  - rewrite IH. fold (cost_labels ps). rewrite list_max_app.
    unfold update. destruct (cost (lot p)) as [c|]; cbn [cost_ccylen list_max fold_right]; lia.
Qed.

Lemma list_max_zero l : Forall (fun n => n = O) l -> list_max l = O.
Proof. induction 1 as [|n l -> _ IH]; [reflexivity|]. cbn. exact IH. Qed.

(** C10. The cost field is enabled iff the largest length of an accumulated
    cost currency label is not zero. When every accumulated cost has an empty
    currency label the field is disabled although costs were seen: the column
    is as wide as the units and their currency, and a position with a cost is
    formatted, alone or in an inventory, to its units and currency only. *)
Theorem cost_field_enablement (ps : list Position) :
  let r := after_positions ps in
  exists r',
    prepare r = Ok r' /\
    cost_ccylen r = list_max (cost_labels ps) /\
    (fmt_cost r' = None <-> list_max (cost_labels ps) = O) /\
    ((forall p c, In p ps -> cost (lot p) = Some c -> a_currency c = []) ->
     fmt_cost r' = None /\
     width r' = Ok (Z.of_nat (units_width r + 1 + units_ccylen r)) /\
     forall p, In p ps ->
       exists units,
         DecimalRenderer.format (DecimalRenderer.prepare (units_rdr r))
                                (Some (number p)) = Ok units /\
         format r' (Some p)
         = Ok (Line (units_text r units (currency (lot p)))) /\
         InventoryRenderer.format r' (Some [p])
         = Ok (Line (units_text r units (currency (lot p))))).
Proof.
  cbv zeta. set (r := after_positions ps).
  assert (Hcc : cost_ccylen r = list_max (cost_labels ps)).
  { unfold r, after_positions. rewrite fold_update_cost_ccylen. cbn. lia. }
  destruct (Nat.eq_dec (cost_ccylen r) 0) as [H0|H0].
  - destruct (prepare_cost_off r H0) as (r' & Hp & Hu & _ & _ & Hc0 & Hfc & Hfn & He).
    exists r'. split; [exact Hp|]. split; [exact Hcc|].
    split; [split; [intros _; now rewrite <- Hcc|intros _; exact Hfc]|].
    intros _. split; [exact Hfc|]. split.
    + unfold width. rewrite He. f_equal. f_equal.
      apply length_units_text; cbn; lia.
    + intros p _.
      assert (Hx : exists units,
                 DecimalRenderer.format (DecimalRenderer.prepare (units_rdr r))
                                        (Some (number p)) = Ok units)
        by (eexists; reflexivity).
      destruct Hx as (units & Hx). exists units. split; [exact Hx|].
      unfold format, InventoryRenderer.format.
      cbn [InventoryRenderer.format_positions].
      unfold format_position. rewrite Hc0, Hu, Hx. cbn [Nat.eqb bind].
      rewrite Hfn, He. cbn [bind strings_result]. split; reflexivity.
  - destruct (prepare_cost_on r H0) as (r' & Hp & _ & _ & _ & _ & Hfc & _ & _).
    exists r'. split; [exact Hp|]. split; [exact Hcc|].
    split.
    + split; [|intros E; rewrite <- Hcc in E; contradiction].
      intros E. specialize (Hfc [] [] [] []). rewrite E in Hfc. discriminate Hfc.
    + intros Hall. exfalso. apply H0. rewrite Hcc. apply list_max_zero.
      unfold cost_labels. apply Forall_forall. intros n Hn.
      apply in_flat_map in Hn as (p & Hp' & Hn).
      destruct (cost (lot p)) as [c|] eqn:Ec; [|contradiction].
      destruct Hn as [<-|[]]. now rewrite (Hall p c Hp' Ec).
Qed.

(** A position with a cost whose currency label is empty: the cost is seen
    and not rendered. *)
Lemma cost_field_enablement_witness :
  let pos := mkPosition
               (mkLot (lit "GOOG")
                      (Some (mkAmount (mkDecimal false [D5; D0; D0] 0) [])))
               (mkDecimal false [D1; D0] 0) in
  exists r',
    prepare (after_positions [pos]) = Ok r' /\
    fmt_cost r' = None /\
    format r' (Some pos) = Ok (Line (lit "10 GOOG")).
Proof.
  cbv zeta.
  match goal with
  | |- context [after_positions [?p]] =>
      destruct (cost_field_enablement [p]) as (r' & Hp & _ & _ & H)
  end.
  exists r'. split; [exact Hp|].
  destruct H as (Hfc & _ & Hfmt).
  - intros p c [<-|[]] [= <-]. reflexivity.
  - split; [exact Hfc|].
    destruct (Hfmt _ (or_introl eq_refl)) as (units & Hu & Hf & _).
    rewrite Hf. vm_compute in Hu. apply Ok_inj in Hu. subst units.
    reflexivity.
Defined.

End CostField.

(** * Rows that do not match the columns *)

Section SchemaMismatch.

(** C4 as stated fails: a row after the first that is longer than the
    column list is rendered, its cells past the last column ignored. *)
Lemma later_row_mismatch_rendered :
  let result_types := [(lit "account", t_str)] in
  let result_rows := [[VStr (lit "a")]; [VStr (lit "b"); VStr (lit "c")]] in
  (exists row, In row result_rows /\ length row <> length result_types) /\
  render_text result_types result_rows []
  = (Ok tt, [lit "," ++ lit "---" ++ lit "." ++ newline;
             lit "+" ++ lit "---" ++ lit "+" ++ newline;
             lit "| a |" ++ newline;
             lit "| b |" ++ newline;
             lit "`" ++ lit "---" ++ lit "'" ++ newline]).
Proof.
  cbv zeta. split; [|reflexivity].
  eexists. split; [right; left; reflexivity|]. cbn. discriminate.
Qed.

(** C4, amended. When the first row is not as long as the list of columns,
    [render_text] raises [AssertionError] before it makes a renderer, and
    writes nothing; the other rows are not looked at. *)
Theorem first_row_mismatch_rejected
        (result_types : list (str * dtype)) (row0 : list value)
        (rest : list (list value)) (f : file) :
  length row0 <> length result_types ->
  render_setup result_types (row0 :: rest) = Raise AssertionError /\
  render_text result_types (row0 :: rest) f = (Raise AssertionError, f).
Proof.
  intros Hlen.
  assert (H : render_setup result_types (row0 :: rest) = Raise AssertionError).
  { unfold render_setup.
    destruct (Nat.eqb (length result_types) (length row0)) eqn:E; [|reflexivity].
    apply Nat.eqb_eq in E. congruence. }
  split; [exact H|]. unfold render_text. now rewrite H.
Qed.

Lemma first_row_mismatch_rejected_witness :
  let result_types := [(lit "account", t_str)] in
  let row0 := [VStr (lit "a"); VDecimal (mkDecimal false [D1] 0)] in
  let rest := [[VDate (mkDate 2014 1 1)]] in
  length row0 <> length result_types /\
  render_text result_types (row0 :: rest) [lit "before"]
  = (Raise AssertionError, [lit "before"]).
Proof.
  cbv zeta.
  assert (H : length [VStr (lit "a"); VDecimal (mkDecimal false [D1] 0)]
              <> length [(lit "account", t_str)]) by (cbn; lia).
  split; [exact H|].
  exact (proj2 (first_row_mismatch_rejected
                  [(lit "account", t_str)]
                  [VStr (lit "a"); VDecimal (mkDecimal false [D1] 0)]
                  [[VDate (mkDate 2014 1 1)]] [lit "before"] H)).
Defined.

(** C9 as stated fails: a row after the first that is shorter than the
    column list fails in the line formatter, after the two border lines and
    the lines of the rows before it were written. *)
Lemma short_row_partial_output :
  let result_types := [(lit "account", t_str)] in
  let result_rows := [[VStr (lit "a")]; []] in
  render_text result_types result_rows []
  = (Raise IndexError, [lit "," ++ lit "---" ++ lit "." ++ newline;
                        lit "+" ++ lit "---" ++ lit "+" ++ newline;
                        lit "| a |" ++ newline]).
Proof. reflexivity. Qed.

(** C9, amended. When every row has at least as many cells as there are
    columns, a call of [render_text] that raises has written nothing. *)
Theorem failure_writes_nothing
        (result_types : list (str * dtype)) (result_rows : list (list value))
        (f f' : file) (e : exn) :
  Forall (fun row => length result_types <= length row)%nat result_rows ->
  render_text result_types result_rows f = (Raise e, f') ->
  f' = f.
Proof.
  intros Hlong H. unfold render_text in H.
  destruct (render_setup result_types result_rows) as [[[str_rows formatter] body]|e0] eqn:Hs.
  - exfalso.
    destruct (render_setup_inv _ _ _ _ _ Hs)
      as (renderers & exp_rows & _ & Hlen & H2 & -> & -> & ->).
    rewrite write_rows_ok in H; [discriminate H|].
    apply Forall_forall. intros fields Hin.
    apply in_flat_map in Hin as (exp_row & Hin & Hfields).
    pose proof (physical_rows_length exp_row) as Hpl.
    rewrite Forall_forall in Hpl. rewrite (Hpl _ Hfields), length_map.
    clear - Hin H2 Hlong Hlen.
    induction H2 as [|row exp_row' rows exp_rows (_ & _ & Hl) _ IH].
    + destruct Hin.
    + inversion Hlong; subst. destruct Hin as [<-|Hin]; [lia|auto].
  - now injection H as _ <-.
Qed.

Lemma failure_writes_nothing_witness :
  let result_types := [(lit "position", t_Position)] in
  let result_rows := [[VNone]] in
  Forall (fun row => length result_types <= length row)%nat result_rows /\
  render_text result_types result_rows [lit "before"]
  = (Raise AttributeError, [lit "before"]) /\
  [lit "before"] = [lit "before"].
Proof.
  cbv zeta.
  assert (H1 : Forall (fun row => length [(lit "position", t_Position)] <= length row)%nat
                      [[VNone]]) by (repeat constructor).
  assert (H2 : render_text [(lit "position", t_Position)] [[VNone]] [lit "before"]
               = (Raise AttributeError, [lit "before"])) by reflexivity.
  split; [exact H1|]. split; [exact H2|].
  exact (failure_writes_nothing _ _ _ _ _ H1 H2).
Defined.

End SchemaMismatch.

(** * The table *)

Section Table.

(** C7. A call of [render_text] that returns has written, after what the
    file held: the top border, a comma, the body and a period; the separator
    border, the body between two plus signs; one line for every physical
    row, the physical rows of the first result row first, then those of the
    second, and so on, each line made of ["| "], the fields in the widths of
    their columns with [" | "] between, and [" |"]; and the bottom border,
    the body between a backquote and a quote. The body is a dash, for every
    column as many dashes as it is wide with ["-+-"] between, and a dash. *)
Theorem table_structure
        (result_types : list (str * dtype)) (result_rows : list (list value))
        (f f' : file) :
  render_text result_types result_rows f = (Ok tt, f') ->
  exists renderers exp_rows,
    get_renderers result_types result_rows = Ok renderers /\
    Forall2 (fun row exp_row => format_row renderers row = Ok exp_row)
            result_rows exp_rows /\
    let ws := map col_width renderers in
    f' = f ++ [top_line (body_of ws)] ++ [middle_line (body_of ws)]
           ++ map (text_line ws) (flat_map physical_rows exp_rows)
           ++ [bottom_line (body_of ws)].
Proof.
  intros H. unfold render_text in H.
  destruct (render_setup result_types result_rows) as [[[str_rows formatter] body]|e0] eqn:Hs;
    [|discriminate H].
  destruct (render_setup_inv _ _ _ _ _ Hs)
    as (renderers & exp_rows & Hg & Hlen & H2 & -> & -> & ->).
  exists renderers, exp_rows. split; [exact Hg|]. split.
  - eapply Forall2_impl; [|exact H2]. intros row exp_row [Hf _]. exact Hf.
  - cbv zeta.
    destruct (write_rows _ _ _) as [[u|e] f1] eqn:Hw; [|discriminate H].
    pose proof (write_rows_inv _ _ _ _ _ Hw) as Hlong.
    rewrite (write_rows_ok _ _ _ Hlong) in Hw.
    injection Hw as _ <-. injection H as <-.
    unfold write. now rewrite <- !app_assoc.
Qed.

Lemma table_structure_witness :
  let result_types := [(lit "account", t_str); (lit "balance", t_Decimal)] in
  let result_rows :=
    [[VStr (lit "Cash"); VDecimal (mkDecimal false [D1; D0; D5] (-1))];
     [VStr (lit "Bonds"); VDecimal (mkDecimal true [D2; D0; D0; D2; D5] (-2))]] in
  let f' := [lit ",-------+---------." ++ newline;
             lit "+-------+---------+" ++ newline;
             lit "| Cash  |   10.50 |" ++ newline;
             lit "| Bonds | -200.25 |" ++ newline;
             lit "`-------+---------'" ++ newline] in
  render_text result_types result_rows [] = (Ok tt, f') /\
  exists renderers exp_rows,
    get_renderers result_types result_rows = Ok renderers /\
    Forall2 (fun row exp_row => format_row renderers row = Ok exp_row)
            result_rows exp_rows /\
    let ws := map col_width renderers in
    f' = [] ++ [top_line (body_of ws)] ++ [middle_line (body_of ws)]
            ++ map (text_line ws) (flat_map physical_rows exp_rows)
            ++ [bottom_line (body_of ws)].
Proof.
  cbv zeta.
  match goal with
  | |- ?P /\ _ => assert (H : P) by reflexivity
  end.
  split; [exact H|]. exact (table_structure _ _ _ _ H).
Defined.

(** C6. A result row whose cells are formatted to line counts of maximum
    [N] gives [N] physical rows. Physical row [k] has for every column line
    [k] of its cell, or the empty string when the cell has fewer lines, which
    the line formatter pads to as many spaces as the column is wide. The
    lines written for the [N] physical rows are all as long as the border
    lines. *)
Theorem row_expansion
        (result_types : list (str * dtype)) (result_rows : list (list value))
        (renderers : list renderer) (row : list value) (exp_row : list cell) :
  get_renderers result_types result_rows = Ok renderers ->
  In row result_rows ->
  (length result_types <= length row)%nat ->
  format_row renderers row = Ok exp_row ->
  let N := Nat.max 1 (list_max (map line_count exp_row)) in
  let ws := map col_width renderers in
  length (expand_row exp_row) = N /\
  field_formats renderers = Ok (map field_of ws) /\
  (forall k c w, (line_count c <= k)%nat ->
     format_field w None (nth k (cell_lines c) []) = spaces w) /\
  forall k, (k < N)%nat ->
    nth k (expand_row exp_row) []
    = map (fun c => Line (nth k (cell_lines c) [])) exp_row /\
    exists line,
      tformat (line_formatter (map field_of ws)) (nth k (expand_row exp_row) [])
      = Ok line /\
      line = text_line ws (map (fun c => nth k (cell_lines c) []) exp_row) /\
      length line = length (top_line (body_of ws)).
Proof.
  intros Hg Hin Hlong Hf. cbv zeta.
  destruct (get_renderers_ready _ _ _ Hg) as [Hlen Hready].
  rewrite Forall_forall in Hready.
  destruct (format_row_fits _ _ _ (Hready _ Hin) Hf) as (Hz & Hp & Hl).
  rewrite (expand_row_spec _ Hp). unfold physical_rows.
  set (N := Nat.max 1 (list_max (map line_count exp_row))).
  split; [now rewrite !length_map, length_seq|].
  split; [apply field_formats_spec; eapply get_renderers_has_width; eauto|].
  split.
  - intros k c w Hk. unfold line_count in Hk.
    rewrite nth_overflow by exact Hk. apply format_field_nil.
  - intros k Hk.
    assert (Hnth : nth k (map (map Line)
                            (map (fun k0 => map (fun c => nth k0 (cell_lines c) []) exp_row)
                                 (seq 0 N))) []
                   = map Line (map (fun c => nth k (cell_lines c) []) exp_row)).
    { rewrite map_map.
      rewrite (nth_indep _ [] (map Line (map (fun c => nth N (cell_lines c) []) exp_row)))
        by (now rewrite length_map, length_seq).
      rewrite (map_nth (fun k0 => map Line (map (fun c => nth k0 (cell_lines c) []) exp_row))
                       (seq 0 N) N k).
      now rewrite seq_nth. }
    rewrite Hnth. split; [now rewrite map_map|].
    assert (Hfields : (length (map col_width renderers)
                       <= length (map (fun c => nth k (cell_lines c) []) exp_row))%nat)
      by (rewrite !length_map; lia).
    eexists. split; [apply tformat_line; exact Hfields|]. split; [reflexivity|].
    apply length_text_line; [exact Hfields|]. now apply fields_fit.
Qed.

Lemma row_expansion_witness :
  get_renderers example_types [example_row] = Ok example_renderers /\
  In example_row [example_row] /\
  (length example_types <= length example_row)%nat /\
  format_row example_renderers example_row = Ok example_exp_row /\
  length (expand_row example_exp_row) = 2%nat.
Proof.
  assert (Hg : get_renderers example_types [example_row] = Ok example_renderers)
    by (vm_compute; reflexivity).
  assert (Hin : In example_row [example_row]) by (left; reflexivity).
  assert (Hlen : (length example_types <= length example_row)%nat) by (cbn; lia).
  assert (Hf : format_row example_renderers example_row = Ok example_exp_row)
    by (vm_compute; reflexivity).
  split; [exact Hg|]. split; [exact Hin|]. split; [exact Hlen|].
  split; [exact Hf|].
  exact (proj1 (row_expansion _ _ _ _ _ Hg Hin Hlen Hf)).
Defined.

End Table.

(** * Reading back a formatted number *)

Section RoundTrip.

Import DecimalRenderer.

Lemma char_digit_char d : char_digit (digit_char d) = Some d.
Proof. destruct d; reflexivity. Qed.

Lemma digit_char_not_space d : Ascii.eqb (digit_char d) " " = false.
Proof. destruct d; reflexivity. Qed.

Lemma digit_char_not_sign d :
  Ascii.eqb (digit_char d) "-" = false /\ Ascii.eqb (digit_char d) "+" = false.
Proof. destruct d; split; reflexivity. Qed.

Lemma lstrip_spaces k s : lstrip (spaces k ++ s) = lstrip s.
Proof. induction k as [|k IH]; [reflexivity|exact IH]. Qed.

Lemma span_digits_app ds rest :
  match rest with [] => True | c :: _ => char_digit c = None end ->
  span_digits (digits_str ds ++ rest) = (ds, rest).
Proof.
  intros Hrest. induction ds as [|d ds IH].
  - destruct rest as [|c rest]; [reflexivity|]. cbn. now rewrite Hrest.
  - cbn [digits_str map app span_digits]. rewrite char_digit_char.
    unfold digits_str in IH. now rewrite IH.
Qed.

Lemma strip_zeros_wf ds : ds <> [] -> wf_digits (strip_zeros ds).
Proof.
  induction ds as [|d ds IH]; intros Hne; [contradiction|].
  destruct ds as [|d' ds'].
  - destruct d; exact I.
  - destruct d; try (cbn; discriminate). apply IH. discriminate.
Qed.

(** The text of a number: blanks, a sign or a blank for it, the integer
    part, and the fraction after a point, is read back as that number. *)
Lemma parse_fixed k sp n i f :
  i <> [] ->
  parse_decimal (spaces k ++ sign_str sp n ++ digits_str i ++ frac_str f)
  = Some (mkDecimal (sign n) (strip_zeros (i ++ f)) (- Z.of_nat (length f))).
Proof.
  intros Hi.
  set (body := (if sign n then lit "-" else []) ++ digits_str i ++ frac_str f).
  assert (Hl : lstrip (spaces k ++ sign_str sp n ++ digits_str i ++ frac_str f) = body).
  { rewrite lstrip_spaces. unfold sign_str, body.
    destruct i as [|d i]; [contradiction|].
    destruct (sign n); [reflexivity|].
    destruct sp; cbn [lit list_ascii_of_string app digits_str map lstrip];
      rewrite ?Ascii.eqb_refl; cbn [lstrip]; now rewrite digit_char_not_space. }
  assert (Hlast : exists pre d, body = pre ++ [digit_char d]).
  { unfold body, frac_str. destruct f as [|d0 f] using rev_ind.
    - destruct i as [|d0 i] using rev_ind; [contradiction|].
      exists ((if sign n then lit "-" else []) ++ digits_str i), d0.
      unfold digits_str. now rewrite map_app, app_nil_r, app_assoc.
    - clear IHf. exists ((if sign n then lit "-" else []) ++ digits_str i ++ lit "." ++ digits_str f), d0.
      destruct (f ++ [d0]) eqn:E; [now destruct f|]. rewrite <- E.
      unfold digits_str. rewrite !map_app. cbn [map]. now rewrite <- !app_assoc. }
  destruct Hlast as (pre & dl & Hbody).
  assert (Hs : strip (spaces k ++ sign_str sp n ++ digits_str i ++ frac_str f) = body).
  { unfold strip. rewrite Hl, Hbody, rev_app_distr. cbn [rev app lstrip].
    rewrite digit_char_not_space. cbn [rev]. now rewrite rev_involutive. }
  unfold parse_decimal. rewrite Hs. unfold body.
  assert (Hfrac : match frac_str f with [] => True | c :: _ => char_digit c = None end).
  { destruct f; [exact I|reflexivity]. }
  assert (Hrest : forall s,
             s = digits_str i ++ frac_str f ->
             (let '(intpart, s0) := span_digits s in
              let '(fracpart, s1) :=
                match s0 with
                | c :: s' => if Ascii.eqb c "." then span_digits s' else ([], s0)
                | [] => ([], s0)
                end in
              match s1, intpart ++ fracpart with
              | [], _ :: _ =>
                  Some (mkDecimal (sign n) (strip_zeros (intpart ++ fracpart))
                                  (- Z.of_nat (length fracpart)))
              | _, _ => None
              end)
             = Some (mkDecimal (sign n) (strip_zeros (i ++ f)) (- Z.of_nat (length f)))).
  { intros s ->. rewrite (span_digits_app i (frac_str f) Hfrac).
    destruct f as [|d0 f].
    - cbn [frac_str]. rewrite app_nil_r. destruct i; [contradiction|reflexivity].
    - unfold frac_str. cbn [lit list_ascii_of_string app].
      rewrite Ascii.eqb_refl.
      rewrite <- (app_nil_r (digits_str (d0 :: f))), (span_digits_app (d0 :: f) [] I).
      destruct i; [contradiction|reflexivity]. }
  destruct (sign n) eqn:Esign.
  - cbn [lit list_ascii_of_string app]. rewrite Ascii.eqb_refl.
    apply Hrest. reflexivity.
  - cbn [app]. destruct i as [|d0 i]; [contradiction|].
    cbn [digits_str map app].
    destruct (digit_char_not_sign d0) as [-> ->].
    apply (Hrest (digit_char d0 :: digits_str i ++ frac_str f)). reflexivity.
Qed.

(** C5. Every number accumulated in a decimal column is formatted, after
    [prepare], to a text that [Decimal] reads back as a number equal to the
    original: no digit of it is rounded away or cut. *)
Theorem decimal_round_trip (cells : list (option Decimal)) (n : Decimal) :
  In (Some n) cells ->
  exists text parsed,
    format (prepare (accumulate cells)) (Some n) = Ok text /\
    parse_decimal text = Some parsed /\
    wf_decimal parsed /\
    dec_eq parsed n.
Proof.
  intros Hin.
  pose proof (accumulate_bounded cells) as [_ Hmin].
  pose proof (accumulate_covers cells n Hin) as (_ & _ & Hexp).
  set (r := accumulate cells) in *.
  unfold format, prepare. cbn [fmt space_sign f_width f_precision].
  rewrite format_f_unfold.
  set (prec := Z.to_nat (- min_exponent r)).
  assert (Hprec : - Z.of_nat prec <= exponent n) by (unfold prec; lia).
  pose proof (fixed_parts_exact n prec Hprec) as Hparts. cbv zeta in Hparts.
  destruct (fixed_parts (rescale n (- Z.of_nat prec))) as [i f].
  destruct Hparts as (_ & _ & Hf & Hi & Hcoeff).
  assert (Hne : i <> []).
  { intros ->. cbn [length] in Hi. destruct (dec_is_zero n); lia. }
  eexists. eexists. split; [reflexivity|].
  unfold rjust. rewrite (parse_fixed _ _ n i f Hne).
  split; [reflexivity|]. split.
  - unfold wf_decimal. cbn [digits]. apply strip_zeros_wf.
    destruct i; [contradiction|discriminate].
  - unfold dec_eq, signed_coeff. cbn [sign digits exponent].
    rewrite coeff_strip_zeros, Hcoeff, Hf.
    rewrite Z.min_l by lia.
    replace (- Z.of_nat prec - - Z.of_nat prec) with 0 by lia.
    replace (exponent n - - Z.of_nat prec) with (exponent n + Z.of_nat prec) by lia.
    destruct (sign n); ring.
Qed.

Lemma decimal_round_trip_witness :
  let cells := [Some (mkDecimal false [D1; D0; D5] (-1)); None;
                Some (mkDecimal true [D2; D0; D0; D2; D5] (-2))] in
  let n := mkDecimal false [D1; D0; D5] (-1) in
  In (Some n) cells /\
  format (prepare (accumulate cells)) (Some n) = Ok (lit "  10.50") /\
  exists text parsed,
    format (prepare (accumulate cells)) (Some n) = Ok text /\
    parse_decimal text = Some parsed /\
    wf_decimal parsed /\
    dec_eq parsed n.
Proof.
  cbv zeta.
  match goal with
  | |- In ?x ?l /\ _ => assert (Hin : In x l) by (left; reflexivity)
  end.
  split; [exact Hin|]. split; [reflexivity|].
  exact (decimal_round_trip _ _ Hin).
Defined.

End RoundTrip.

(** * The scenarios of the specification *)

Section Scenarios.

(** Rounding in [format]: half to even, with the carry. *)
Example format_f_half_even :
  format_f false 0 2 (mkDecimal false [D2; D6; D7; D5] (-3)) = lit "2.68" /\
  format_f false 0 2 (mkDecimal false [D2; D6; D6; D5] (-3)) = lit "2.66" /\
  format_f false 0 2 (mkDecimal false [D9; D9; D9; D6] (-3)) = lit "10.00" /\
  format_f true 8 3 (mkDecimal true [D5; D2] (-5)) = lit "  -0.001" /\
  format_f true 8 0 (mkDecimal true [D1; D2] 3) = lit "  -12000".
Proof. repeat split; reflexivity. Qed.

(** Scenario B: an inventory of two positions, one with a cost, gives two
    lines; the line of the position without cost is blank where the cost
    is. *)
Example scenario_inventory_two_lines :
  render_text [(lit "balance", t_Inventory)]
    [[VInventory
        [mkPosition
           (mkLot (lit "GOOG")
                  (Some (mkAmount (mkDecimal false [D5; D0; D0] 0) (lit "USD"))))
           (mkDecimal false [D1; D0] 0);
         mkPosition (mkLot (lit "USD") None)
                    (mkDecimal true [D1; D0; D0; D2; D5] (-2))]]] []
  = (Ok tt, [lit ",------------------------." ++ newline;
             lit "+------------------------+" ++ newline;
             lit "|   10.00 GOOG {500 USD} |" ++ newline;
             lit "| -100.25 USD            |" ++ newline;
             lit "`------------------------'" ++ newline]).
Proof. reflexivity. Qed.

(** Scenario C: an inventory without positions in a row gives one blank
    line. *)
Example scenario_empty_inventory :
  render_text [(lit "account", t_str); (lit "balance", t_Inventory)]
    [[VStr (lit "Cash");
      VInventory [mkPosition (mkLot (lit "USD") None) (mkDecimal false [D5] 0)]];
     [VStr (lit "Bonds"); VInventory []]] []
  = (Ok tt, [lit ",-------+-------." ++ newline;
             lit "+-------+-------+" ++ newline;
             lit "| Cash  | 5 USD |" ++ newline;
             lit "| Bonds |       |" ++ newline;
             lit "`-------+-------'" ++ newline]).
Proof. reflexivity. Qed.

(** Scenario D: the strings ["a"], ["abc"] and [None] make a column of
    width 3. *)
Example scenario_string_column :
  let r := StringRenderer.prepare
             (fold_left StringRenderer.update
                        [Some (lit "a"); Some (lit "abc"); None]
                        StringRenderer.init) in
  StringRenderer.width r = 3 /\
  StringRenderer.format r (Some (lit "a")) = Ok (lit "a  ") /\
  StringRenderer.format r (Some (lit "abc")) = Ok (lit "abc") /\
  StringRenderer.format r None = Ok (lit "   ").
Proof. repeat split; reflexivity. Qed.

End Scenarios.

(** * More on the renderers *)

Section StringColumn.

Import StringRenderer.

Lemma fold_update_maxlen cells : forall r,
  maxlen (fold_left update cells r)
  = Nat.max (maxlen r) (list_max (map (@length ascii) (strings cells))).
Proof.
  induction cells as [|c cells IH]; intros r; cbn [fold_left strings flat_map].
  - cbn. lia.
  - rewrite IH. fold (strings cells). rewrite map_app, list_max_app.
    destruct c as [x|]; cbn [update maxlen map list_max fold_right];
      unfold str in *; lia.
Qed.

(** X1. The width of a string column is the length of its longest string,
    0 when it has none; [None] cells do not count. *)
Theorem string_width_longest (cells : list (option str)) :
  width (prepare (accumulate_strings cells))
  = Z.of_nat (list_max (map (@length ascii) (strings cells))).
Proof.
  unfold width, prepare, accumulate_strings. cbn [maxlen].
  rewrite fold_update_maxlen. reflexivity.
Qed.

(** X2. A prepared string renderer formats every string, seen or not, to
    exactly the width of the column: a shorter string is followed by
    blanks, a longer one is cut to its first characters, and [None] is
    formatted as the empty string. *)
Theorem string_format_pads_or_cuts (r : t) (string : option str) :
  let s := match string with Some x => x | None => [] end in
  let m := maxlen r in
  exists out,
    format (prepare r) string = Ok out /\
    length out = m /\
    out = firstn m s ++ spaces (m - length s).
Proof.
  cbv zeta. rewrite string_format. eexists. split; [reflexivity|].
  unfold format_field. rewrite length_ljust, length_firstn.
  split; [lia|]. unfold ljust. f_equal. rewrite length_firstn.
  f_equal. unfold str in *. lia.
Qed.

End StringColumn.

Section Unprepared.

Lemma fold_update_keeps_fmt cells : forall r,
  DecimalRenderer.fmt (fold_left DecimalRenderer.update cells r) = DecimalRenderer.fmt r /\
  DecimalRenderer.empty (fold_left DecimalRenderer.update cells r) = DecimalRenderer.empty r /\
  DecimalRenderer.total_width (fold_left DecimalRenderer.update cells r)
  = DecimalRenderer.total_width r.
Proof.
  induction cells as [|c cells IH]; intros r; [now repeat split|].
  cbn [fold_left]. destruct (IH (DecimalRenderer.update r c)) as (-> & -> & ->).
  destruct c; now repeat split.
Qed.

Lemma fold_string_update_keeps_fmt cells : forall r,
  StringRenderer.fmt (fold_left StringRenderer.update cells r) = StringRenderer.fmt r.
Proof.
  induction cells as [|c cells IH]; intros r; [reflexivity|].
  cbn [fold_left]. rewrite IH. now destruct c.
Qed.

Lemma position_update_keeps_fmt ps : forall r,
  let r' := fold_left (fun self p => PositionRenderer.update self (Some p)) ps r in
  DecimalRenderer.fmt (PositionRenderer.units_rdr r')
  = DecimalRenderer.fmt (PositionRenderer.units_rdr r) /\
  PositionRenderer.fmt_nocost r' = PositionRenderer.fmt_nocost r /\
  PositionRenderer.empty r' = PositionRenderer.empty r.
Proof.
  induction ps as [|p ps IH]; intros r; [now repeat split|].
  cbn [fold_left]. cbv zeta in *.
  destruct (IH (PositionRenderer.update r (Some p))) as (-> & -> & ->).
  unfold PositionRenderer.update. destruct (cost (lot p)); now repeat split.
Qed.

(** X3. [format] before [prepare] raises [AttributeError] in the string,
    decimal, position and inventory renderers, whatever was accumulated and
    whatever the cell: the formats it reads are attributes that [prepare]
    sets. The width of an unprepared decimal renderer is [None]. *)
Theorem format_needs_prepare :
  (forall cells v,
     StringRenderer.format (accumulate_strings cells) v = Raise AttributeError) /\
  (forall cells v,
     DecimalRenderer.format (accumulate cells) v = Raise AttributeError /\
     DecimalRenderer.width (accumulate cells) = None) /\
  (forall cells v,
     PositionRenderer.format (accumulate_positions cells) v = Raise AttributeError) /\
  (forall cells v,
     InventoryRenderer.format (accumulate_inventories cells) v = Raise AttributeError).
Proof.
  split; [|split; [|split]].
  - intros cells v. unfold StringRenderer.format, accumulate_strings.
    now rewrite fold_string_update_keeps_fmt.
  - intros cells v. unfold DecimalRenderer.format, DecimalRenderer.width, accumulate.
    destruct (fold_update_keeps_fmt cells DecimalRenderer.init) as (-> & -> & ->).
    now destruct v.
  - intros cells [p|]; [|reflexivity].
    rewrite accumulate_positions_after. unfold after_positions.
    destruct (position_update_keeps_fmt (present cells) PositionRenderer.init)
      as (Hu & Hn & He). cbv zeta in *.
    unfold PositionRenderer.format, PositionRenderer.format_position,
      DecimalRenderer.format. rewrite Hu. cbn [PositionRenderer.init
      PositionRenderer.units_rdr DecimalRenderer.init DecimalRenderer.fmt bind].
    destruct (Nat.eqb _ 0); [reflexivity|]. now destruct (cost (lot p)).
  - intros cells [inv|]; [|reflexivity].
    rewrite accumulate_inventories_after. unfold after_positions.
    destruct (position_update_keeps_fmt (held cells) PositionRenderer.init)
      as (Hu & Hn & He). cbv zeta in *.
    unfold InventoryRenderer.format. destruct inv as [|p inv].
    + cbn [InventoryRenderer.format_positions bind strings_result]. now rewrite He.
    + cbn [InventoryRenderer.format_positions].
      unfold PositionRenderer.format_position, DecimalRenderer.format. rewrite Hu.
      cbn [PositionRenderer.init PositionRenderer.units_rdr DecimalRenderer.init
           DecimalRenderer.fmt bind].
      destruct (Nat.eqb _ 0); [reflexivity|]. now destruct (cost (lot p)).
Qed.

End Unprepared.

Section Accumulation.

Lemma decimal_update_comm r a b :
  DecimalRenderer.update (DecimalRenderer.update r a) b
  = DecimalRenderer.update (DecimalRenderer.update r b) a.
Proof.
  destruct a as [a|], b as [b|]; try reflexivity.
  unfold DecimalRenderer.update.
  cbn [DecimalRenderer.has_negative DecimalRenderer.max_adjusted
       DecimalRenderer.min_exponent DecimalRenderer.total_width
       DecimalRenderer.fmt DecimalRenderer.empty].
  f_equal.
  - now destruct (sign a), (sign b).
  - lia.
  - lia.
Qed.

Lemma position_update_comm r a b :
  PositionRenderer.update (PositionRenderer.update r a) b
  = PositionRenderer.update (PositionRenderer.update r b) a.
Proof.
  destruct a as [a|], b as [b|]; try reflexivity.
  unfold PositionRenderer.update.
  destruct (cost (lot a)) as [ca|], (cost (lot b)) as [cb|];
    cbn [PositionRenderer.units_rdr PositionRenderer.units_ccylen
         PositionRenderer.cost_rdr PositionRenderer.cost_ccylen
         PositionRenderer.fmt_cost PositionRenderer.fmt_nocost
         PositionRenderer.empty];
    f_equal; try apply decimal_update_comm; lia.
Qed.

Lemma fold_left_permutation {S A} (f : S -> A -> S) :
  (forall s a b, f (f s a) b = f (f s b) a) ->
  forall l l', Permutation l l' ->
  forall s, fold_left f l s = fold_left f l' s.
Proof.
  intros Hcomm l l' Hp. induction Hp; intros s; cbn [fold_left].
  - reflexivity.
  - apply IHHp.
  - now rewrite Hcomm.
  - now rewrite IHHp1, IHHp2.
Qed.

(** X4. The order of the cells of a column does not matter to what a
    decimal, a position or a string renderer accumulates: any rearrangement
    of the cells leaves the same renderer. *)
Theorem accumulation_order_irrelevant :
  (forall cells cells', Permutation cells cells' ->
     accumulate cells = accumulate cells') /\
  (forall cells cells', Permutation cells cells' ->
     accumulate_positions cells = accumulate_positions cells') /\
  (forall cells cells', Permutation cells cells' ->
     accumulate_strings cells = accumulate_strings cells').
Proof.
  split; [|split]; intros cells cells' Hp.
  - apply fold_left_permutation; [apply decimal_update_comm|exact Hp].
  - apply fold_left_permutation; [apply position_update_comm|exact Hp].
  - apply fold_left_permutation; [|exact Hp].
    intros s [a|] [b|]; try reflexivity.
    unfold StringRenderer.update. cbn [StringRenderer.maxlen StringRenderer.fmt].
    f_equal. lia.
Qed.

Lemma accumulation_order_irrelevant_witness :
  let a := Some (mkDecimal true [D1; D5] (-1)) in
  let b := Some (mkDecimal false [D2; D0; D0] 0) in
  Permutation [a; None; b] [b; a; None] /\
  accumulate [a; None; b] = accumulate [b; a; None].
Proof.
  cbv zeta.
  assert (Hp : Permutation
                 [Some (mkDecimal true [D1; D5] (-1)); None;
                  Some (mkDecimal false [D2; D0; D0] 0)]
                 [Some (mkDecimal false [D2; D0; D0] 0);
                  Some (mkDecimal true [D1; D5] (-1)); None]).
  { eapply perm_trans; [apply perm_skip, perm_swap|apply perm_swap]. }
  split; [exact Hp|]. exact (proj1 accumulation_order_irrelevant _ _ Hp).
Defined.

Lemma stats_le_refl r : stats_le r r.
Proof. repeat split; auto; lia. Qed.

Lemma stats_le_fold cells : forall r, stats_le r (fold_left DecimalRenderer.update cells r).
Proof.
  induction cells as [|c cells IH]; intros r; [apply stats_le_refl|].
  cbn [fold_left]. destruct (IH (DecimalRenderer.update r c)) as (H1 & H2 & H3).
  destruct c as [n|]; [|now repeat split].
  cbn [DecimalRenderer.update DecimalRenderer.has_negative
       DecimalRenderer.max_adjusted DecimalRenderer.min_exponent] in *.
  repeat split; try lia.
  intros Hn. apply H1. rewrite Hn. now destruct (sign n).
Qed.

(** X5. More cells never narrow a decimal column: the width after
    accumulating further cells is at least the width before. *)
Theorem decimal_width_grows (cells more : list (option Decimal)) :
  exists w w',
    DecimalRenderer.width (DecimalRenderer.prepare (accumulate cells)) = Some w /\
    DecimalRenderer.width (DecimalRenderer.prepare (accumulate (cells ++ more)))
    = Some w' /\
    w <= w'.
Proof.
  unfold accumulate. rewrite fold_left_app.
  set (r := fold_left DecimalRenderer.update cells DecimalRenderer.init).
  destruct (stats_le_fold more r) as (H1 & H2 & H3).
  set (r' := fold_left DecimalRenderer.update more r) in *.
  unfold DecimalRenderer.width, DecimalRenderer.prepare.
  cbn [DecimalRenderer.total_width].
  eexists. eexists. split; [reflexivity|]. split; [reflexivity|].
  assert (Hs : (if DecimalRenderer.has_negative r then 1 else 0)
               <= (if DecimalRenderer.has_negative r' then 1 else 0)).
  { destruct (DecimalRenderer.has_negative r); [rewrite H1 by reflexivity; lia|].
    destruct (DecimalRenderer.has_negative r'); lia. }
  assert (Hp : (if 0 <? - DecimalRenderer.min_exponent r then 1 else 0)
               <= (if 0 <? - DecimalRenderer.min_exponent r' then 1 else 0)).
  { destruct (0 <? - DecimalRenderer.min_exponent r) eqn:E;
      destruct (0 <? - DecimalRenderer.min_exponent r') eqn:E'; lia. }
  lia.
Qed.

End Accumulation.

Section Alignment.

Lemma digit_char_not_point d : digit_char d <> "."%char.
Proof. destruct d; discriminate. Qed.

Lemma no_point_in_digits ds : ~ In "."%char (digits_str ds).
Proof.
  unfold digits_str. intros H. apply in_map_iff in H as (d & Hd & _).
  exact (digit_char_not_point d Hd).
Qed.

(** X6. In a decimal column with fractional digits every accumulated number
    is formatted with one decimal point, followed by as many digits as the
    longest fraction of the column has: the points of the column are in the
    same place, counted from the right. *)
Theorem decimal_points_align (cells : list (option Decimal)) (n : Decimal) :
  In (Some n) cells ->
  DecimalRenderer.min_exponent (accumulate cells) < 0 ->
  exists pre f,
    DecimalRenderer.format (DecimalRenderer.prepare (accumulate cells)) (Some n)
    = Ok (pre ++ lit "." ++ digits_str f) /\
    ~ In "."%char pre /\
    Z.of_nat (length f) = - DecimalRenderer.min_exponent (accumulate cells).
Proof.
  intros Hin Hneg.
  pose proof (accumulate_covers cells n Hin) as (_ & _ & Hexp).
  set (r := accumulate cells) in *.
  unfold DecimalRenderer.format, DecimalRenderer.prepare.
  cbn [DecimalRenderer.fmt DecimalRenderer.space_sign DecimalRenderer.f_width
       DecimalRenderer.f_precision].
  rewrite format_f_unfold.
  set (prec := Z.to_nat (- DecimalRenderer.min_exponent r)).
  assert (Hprec : - Z.of_nat prec <= exponent n) by (unfold prec; lia).
  pose proof (fixed_parts_exact n prec Hprec) as Hparts. cbv zeta in Hparts.
  destruct (fixed_parts (rescale n (- Z.of_nat prec))) as [i f].
  destruct Hparts as (_ & _ & Hf & _ & _).
  destruct f as [|d f]; [cbn [length] in Hf; unfold prec in Hf; lia|].
  unfold rjust, frac_str.
  match goal with
  | |- context [spaces ?k ++ sign_str ?sp n ++ _] =>
      exists (spaces k ++ sign_str sp n ++ digits_str i), (d :: f)
  end.
  split; [now rewrite <- !app_assoc|]. split.
  - intros H. apply in_app_or in H as [H|H].
    + unfold spaces, times in H. apply repeat_spec in H. discriminate H.
    + apply in_app_or in H as [H|H]; [|exact (no_point_in_digits i H)].
      unfold sign_str in H.
      destruct (sign n); [destruct H as [H|[]]; discriminate H|].
      match type of H with
      | In _ (if ?b then _ else _) => destruct b
      end; [destruct H as [H|[]]; discriminate H|destruct H].
  - rewrite Hf. unfold prec. lia.
Qed.

Lemma decimal_points_align_witness :
  let cells := [Some (mkDecimal false [D1; D0; D5] (-1));
                Some (mkDecimal true [D2; D0; D0; D2; D5] (-2))] in
  let n := mkDecimal false [D1; D0; D5] (-1) in
  In (Some n) cells /\
  DecimalRenderer.min_exponent (accumulate cells) < 0 /\
  exists pre f,
    DecimalRenderer.format (DecimalRenderer.prepare (accumulate cells)) (Some n)
    = Ok (pre ++ lit "." ++ digits_str f) /\
    ~ In "."%char pre /\
    Z.of_nat (length f) = - DecimalRenderer.min_exponent (accumulate cells).
Proof.
  cbv zeta.
  match goal with
  | |- In ?x ?l /\ ?P /\ _ =>
      assert (Hin : In x l) by (left; reflexivity);
      assert (Hneg : P) by (cbn; lia)
  end.
  split; [exact Hin|]. split; [exact Hneg|].
  exact (decimal_points_align _ _ Hin Hneg).
Defined.

(** X7. The width of a position or inventory column after [prepare]: the
    width of the units, a blank and the longest unit currency; when a cost
    currency was seen, also a blank, a brace, the width of the costs, a
    blank, the longest cost currency and a brace. *)
Theorem position_width_formula (r : PositionRenderer.t) :
  exists r',
    PositionRenderer.prepare r = Ok r' /\
    PositionRenderer.width r'
    = Ok (Z.of_nat
            (units_width r + 1 + PositionRenderer.units_ccylen r
             + (if Nat.eqb (PositionRenderer.cost_ccylen r) 0 then 0
                else 1 + (1 + cost_width r + 1 + PositionRenderer.cost_ccylen r + 1)))).
Proof.
  destruct (Nat.eq_dec (PositionRenderer.cost_ccylen r) 0) as [H0|H0].
  - destruct (prepare_cost_off r H0) as (r' & Hp & _ & _ & _ & _ & _ & _ & He).
    exists r'. split; [exact Hp|]. unfold PositionRenderer.width.
    rewrite He, H0. cbn [Nat.eqb]. do 2 f_equal.
    rewrite length_units_text; cbn [length]; lia.
  - destruct (prepare_cost_on r H0) as (r' & Hp & _ & _ & _ & _ & _ & _ & He).
    exists r'. split; [exact Hp|]. unfold PositionRenderer.width.
    rewrite He. apply Nat.eqb_neq in H0. rewrite H0. do 2 f_equal.
    rewrite !length_app, length_units_text, length_cost_blank, length_cost_text;
      cbn [length lit list_ascii_of_string]; lia.
Qed.

(** X8. An inventory is formatted position by position, each as the
    position renderer formats it alone: an inventory of one position gives
    the string of that position, and an inventory of two positions or more
    gives a list exactly when every position is formatted to a string, the
    strings in the order of the positions. *)
Theorem inventory_lines_are_positions (r : PositionRenderer.t) :
  (forall p,
     InventoryRenderer.format r (Some [p]) = PositionRenderer.format r (Some p)) /\
  (forall inv l, (2 <= length inv)%nat ->
     (InventoryRenderer.format r (Some inv) = Ok (Lines l) <->
      Forall2 (fun p s => PositionRenderer.format r (Some p) = Ok (Line s)) inv l)).
Proof.
  assert (Hpos : forall p s,
             PositionRenderer.format r (Some p) = Ok (Line s)
             <-> PositionRenderer.format_position r p = Ok s).
  { intros p s. unfold PositionRenderer.format.
    destruct (PositionRenderer.format_position r p) as [x|e]; cbn [bind strings_result].
    - split; [now intros [= ->]|now intros [= ->]].
    - split; discriminate. }
  assert (Hall : forall inv l,
             InventoryRenderer.format_positions r inv = Ok l
             <-> Forall2 (fun p s => PositionRenderer.format r (Some p) = Ok (Line s)) inv l).
  { induction inv as [|p inv IH]; intros l; cbn [InventoryRenderer.format_positions].
    - split; [intros [= <-]; constructor|intros H; inversion H; reflexivity].
    - destruct (PositionRenderer.format_position r p) as [x|e] eqn:Ex; cbn [bind].
      + destruct (InventoryRenderer.format_positions r inv) as [xs|e] eqn:Exs; cbn [bind].
        * split.
          -- intros [= <-]. constructor; [now apply Hpos|now apply IH].
          -- intros H. inversion H as [|? s ? l' Hs Hl]; subst.
             apply Hpos in Hs. rewrite Ex in Hs. injection Hs as ->.
             apply IH in Hl. now injection Hl as ->.
        * split; [discriminate|]. intros H. inversion H as [|? s ? l' Hs Hl]; subst.
          apply IH in Hl. discriminate Hl.
      + split; [discriminate|]. intros H. inversion H as [|? s ? l' Hs Hl]; subst.
        apply Hpos in Hs. rewrite Ex in Hs. discriminate Hs. }
  split.
  - intros p. unfold InventoryRenderer.format, PositionRenderer.format.
    cbn [InventoryRenderer.format_positions].
    destruct (PositionRenderer.format_position r p); reflexivity.
  - intros inv l Hlen. rewrite <- Hall. unfold InventoryRenderer.format.
    destruct (InventoryRenderer.format_positions r inv) as [xs|e] eqn:E; cbn [bind].
    + assert (Hxs : length xs = length inv).
      { apply Hall in E. symmetry. exact (Forall2_length E). }
      destruct xs as [|x1 [|x2 xs]]; cbn [length] in Hxs; try lia.
      cbn [strings_result]. split; [now intros [= ->]|now intros [= ->]].
    + split; discriminate.
Qed.

Lemma inventory_lines_are_positions_witness :
  let r := example_renderers in
  exists p inv l,
    nth_error r 1 = Some (RInventory p) /\
    (2 <= length inv)%nat /\
    InventoryRenderer.format p (Some inv) = Ok (Lines l) /\
    Forall2 (fun q s => PositionRenderer.format p (Some q) = Ok (Line s)) inv l.
Proof.
  cbv zeta.
  match eval vm_compute in (nth_error example_renderers 1) with
  | Some (RInventory ?p) =>
      match eval vm_compute in (nth_error example_row 1) with
      | Some (VInventory ?inv) =>
          exists p, inv, [lit "  10.00 GOOG {500 USD}"; lit "-100.25 USD           "];
          assert (Hlen : (2 <= length inv)%nat) by (cbn; lia);
          assert (Hf : InventoryRenderer.format p (Some inv)
                       = Ok (Lines [lit "  10.00 GOOG {500 USD}";
                                    lit "-100.25 USD           "]))
            by (vm_compute; reflexivity);
          split; [reflexivity|]; split; [exact Hlen|]; split; [exact Hf|];
          exact (proj1 (proj2 (inventory_lines_are_positions p) inv _ Hlen) Hf)
      end
  end.
Defined.

(** X9. [prepare] is idempotent: preparing a prepared renderer again
    leaves it as it is, for every renderer class. *)
Theorem prepare_idempotent (r r' : renderer) :
  prepare r = Ok r' -> prepare r' = Ok r'.
Proof.
  assert (Hd : forall d, DecimalRenderer.prepare (DecimalRenderer.prepare d)
                         = DecimalRenderer.prepare d) by reflexivity.
  assert (Hp : forall p p', PositionRenderer.prepare p = Ok p' ->
                            PositionRenderer.prepare p' = Ok p').
  { intros p p' H. unfold PositionRenderer.prepare in *.
    destruct (Nat.eqb (PositionRenderer.cost_ccylen p) 0) eqn:E;
      cbn [tformat bind app] in H; apply Ok_inj in H; subst p';
      cbn [PositionRenderer.units_rdr PositionRenderer.cost_rdr
           PositionRenderer.units_ccylen PositionRenderer.cost_ccylen];
      rewrite E, !Hd; reflexivity. }
  intros H. destruct r as [s|d|d|p|p]; cbn [prepare] in H.
  - apply Ok_inj in H. subst r'. reflexivity.
  - apply Ok_inj in H. subst r'. cbn [prepare]. now rewrite Hd.
  - apply Ok_inj in H. subst r'. reflexivity.
  - apply bind_Ok_inv in H as (p' & H & Hr). apply Ok_inj in Hr. subst r'.
    cbn [prepare]. now rewrite (Hp p p' H).
  - apply bind_Ok_inv in H as (p' & H & Hr). apply Ok_inj in Hr. subst r'.
    cbn [prepare]. unfold InventoryRenderer.prepare in *. now rewrite (Hp p p' H).
Qed.

Lemma prepare_idempotent_witness :
  let r := RPosition (after_positions
                        [mkPosition (mkLot (lit "USD") None) (mkDecimal false [D5] 0)]) in
  exists r', prepare r = Ok r' /\ prepare r' = Ok r'.
Proof.
  cbv zeta.
  match goal with
  | |- exists r', prepare ?r = _ /\ _ =>
      destruct (prepare r) as [r'|e] eqn:E; [|vm_compute in E; discriminate E]
  end.
  exists r'. split; [reflexivity|]. exact (prepare_idempotent _ _ E).
Defined.

End Alignment.

(** * More on render_text *)

Section RenderMore.

Lemma prepare_new dt :
  exists r',
    prepare (RENDERERS dt) = Ok r' /\
    has_width r' /\
    col_width r' = initial_width dt.
Proof.
  destruct dt; eexists; (split; [reflexivity|]); split; reflexivity.
Qed.

Lemma prepare_all_new (result_types : list (str * dtype)) :
  exists rs,
    prepare_all (map (fun nt => RENDERERS (snd nt)) result_types) = Ok rs /\
    Forall has_width rs /\
    map col_width rs = map (fun nt => initial_width (snd nt)) result_types.
Proof.
  induction result_types as [|[name dt] types IH].
  - exists []. repeat split; constructor.
  - destruct IH as (rs & Hrs & Hw & Hc).
    destruct (prepare_new dt) as (r' & Hr & Hw' & Hc').
    exists (r' :: rs). cbn [map prepare_all snd]. rewrite Hr, Hrs. cbn [bind].
    split; [reflexivity|]. split; [constructor; assumption|].
    cbn [map]. now rewrite Hc, Hc'.
Qed.

(** X10. Without rows [render_text] never fails and writes the three border
    lines only; a string column is then 0 characters wide, a decimal column
    1, a date column 10, a position or inventory column 2. *)
Theorem render_no_rows (result_types : list (str * dtype)) (f : file) :
  let body := body_of (map (fun nt => initial_width (snd nt)) result_types) in
  render_text result_types [] f
  = (Ok tt, f ++ [top_line body; middle_line body; bottom_line body]).
Proof.
  cbv zeta. destruct (prepare_all_new result_types) as (rs & Hrs & Hw & Hc).
  unfold render_text, render_setup, get_renderers.
  cbn [bind update_rows]. rewrite Hrs. cbn [bind format_rows].
  rewrite (field_formats_spec rs Hw). cbn [bind].
  rewrite line_body_spec. cbn [bind write_rows]. rewrite Hc.
  unfold write. now rewrite <- !app_assoc.
Qed.

Lemma update_ok r v :
  cell_ok (kind r) v -> exists r', update r v = Ok r' /\ kind r' = kind r.
Proof.
  intros H. destruct r, v; cbn [kind cell_ok] in H; try contradiction;
    eexists; split; reflexivity.
Qed.

Lemma update_row_ok rs : forall row,
  Forall2 cell_ok (map kind rs) row ->
  exists rs', update_row rs row = Ok rs' /\ map kind rs' = map kind rs.
Proof.
  induction rs as [|r rs IH]; intros row H; cbn [map] in H.
  - inversion H; subst. exists []. split; reflexivity.
  - inversion H as [|? v ? row' Hv Hrow]; subst.
    destruct (update_ok r v Hv) as (r' & Hr & Hk).
    destruct (IH row' Hrow) as (rs' & Hrs & Hks).
    exists (r' :: rs'). cbn [update_row]. rewrite Hr, Hrs. cbn [bind map].
    split; [reflexivity|]. now rewrite Hk, Hks.
Qed.

Lemma update_rows_ok rows : forall rs,
  Forall (Forall2 cell_ok (map kind rs)) rows ->
  exists rs', update_rows rs rows = Ok rs' /\ map kind rs' = map kind rs.
Proof.
  induction rows as [|row rows IH]; intros rs H.
  - exists rs. split; reflexivity.
  - inversion H as [|? ? Hrow Hrows]; subst.
    destruct (update_row_ok rs row Hrow) as (rs1 & Hrs1 & Hk1).
    rewrite <- Hk1 in Hrows.
    destruct (IH rs1 Hrows) as (rs' & Hrs' & Hk').
    exists rs'. cbn [update_rows]. rewrite Hrs1. cbn [bind].
    split; [exact Hrs'|]. now rewrite Hk', Hk1.
Qed.

Lemma position_prepare_total p :
  exists p', PositionRenderer.prepare p = Ok p'.
Proof.
  destruct (Nat.eq_dec (PositionRenderer.cost_ccylen p) 0) as [H0|H0].
  - destruct (prepare_cost_off p H0) as (p' & Hp & _). eauto.
  - destruct (prepare_cost_on p H0) as (p' & Hp & _). eauto.
Qed.

Lemma prepare_ok r : exists r', prepare r = Ok r' /\ kind r' = kind r.
Proof.
  destruct r as [s|d|d|p|p]; cbn [prepare]; try (eexists; split; reflexivity).
  - destruct (position_prepare_total p) as (p' & ->). eexists. split; reflexivity.
  - unfold InventoryRenderer.prepare.
    destruct (position_prepare_total p) as (p' & ->). eexists. split; reflexivity.
Qed.

Lemma prepare_all_ok rs :
  exists rs', prepare_all rs = Ok rs' /\ map kind rs' = map kind rs.
Proof.
  induction rs as [|r rs IH]; [exists []; split; reflexivity|].
  destruct IH as (rs' & Hrs & Hks). destruct (prepare_ok r) as (r' & Hr & Hk).
  exists (r' :: rs'). cbn [prepare_all map]. rewrite Hr, Hrs. cbn [bind].
  split; [reflexivity|]. now rewrite Hk, Hks.
Qed.

Lemma position_format_total p p' pos :
  PositionRenderer.prepare p = Ok p' ->
  exists s, PositionRenderer.format_position p' pos = Ok s.
Proof.
  intros Hp. unfold PositionRenderer.format_position.
  destruct (Nat.eq_dec (PositionRenderer.cost_ccylen p) 0) as [H0|H0].
  - destruct (prepare_cost_off p H0) as (p2 & Hp2 & Hu & _ & _ & Hcc & _ & Hfn & _).
    rewrite Hp in Hp2. apply Ok_inj in Hp2. subst p2.
    rewrite Hcc, Hu. cbn [Nat.eqb]. unfold DecimalRenderer.format at 1.
    cbn [DecimalRenderer.prepare DecimalRenderer.fmt bind]. rewrite Hfn. eauto.
  - destruct (prepare_cost_on p H0) as (p2 & Hp2 & Hu & Hcr & _ & Hcc & Hfc & Hfn & _).
    rewrite Hp in Hp2. apply Ok_inj in Hp2. subst p2.
    rewrite Hcc, Hu, Hcr. apply Nat.eqb_neq in H0. rewrite H0.
    unfold DecimalRenderer.format.
    cbn [DecimalRenderer.prepare DecimalRenderer.fmt bind].
    destruct (cost (lot pos)); cbn [bind]; [rewrite Hfc|rewrite Hfn]; eauto.
Qed.

Lemma positions_format_total p p' inv :
  PositionRenderer.prepare p = Ok p' ->
  exists l, InventoryRenderer.format_positions p' inv = Ok l.
Proof.
  intros Hp. induction inv as [|pos inv (l & IH)]; [exists []; reflexivity|].
  destruct (position_format_total p p' pos Hp) as (s & Hs).
  exists (s :: l). cbn [InventoryRenderer.format_positions].
  now rewrite Hs, IH.
Qed.

Lemma position_empty_set p p' :
  PositionRenderer.prepare p = Ok p' -> exists e, PositionRenderer.empty p' = Some e.
Proof.
  intros Hp. destruct (Nat.eq_dec (PositionRenderer.cost_ccylen p) 0) as [H0|H0].
  - destruct (prepare_cost_off p H0) as (p2 & Hp2 & _ & _ & _ & _ & _ & _ & He).
    rewrite Hp in Hp2. apply Ok_inj in Hp2. subst p2. eauto.
  - destruct (prepare_cost_on p H0) as (p2 & Hp2 & _ & _ & _ & _ & _ & _ & He).
    rewrite Hp in Hp2. apply Ok_inj in Hp2. subst p2. eauto.
Qed.

(** A prepared renderer formats every cell its column accepts. *)
Lemma format_ok r r' v :
  prepare r = Ok r' -> cell_ok (kind r') v -> exists c, format r' v = Ok c.
Proof.
  intros Hp Hv. destruct r as [s|d|d|p|p]; cbn [prepare] in Hp.
  - apply Ok_inj in Hp. subst r'.
    destruct v; cbn [kind cell_ok] in Hv; try contradiction;
      cbv beta iota delta [format]; rewrite string_format; cbn [bind]; eauto.
  - apply Ok_inj in Hp. subst r'.
    destruct v; cbn [kind cell_ok] in Hv; try contradiction;
      cbv beta iota delta [format]; unfold DecimalRenderer.format;
      cbn [DecimalRenderer.prepare DecimalRenderer.fmt DecimalRenderer.empty bind];
      eauto.
  - apply Ok_inj in Hp. subst r'.
    destruct v; cbn [kind cell_ok] in Hv; try contradiction;
      cbv beta iota delta [format]; eauto.
  - apply bind_Ok_inv in Hp as (p' & Hp & Hr). apply Ok_inj in Hr. subst r'.
    destruct v; cbn [kind cell_ok] in Hv; try contradiction.
    cbv beta iota delta [format]. unfold PositionRenderer.format.
    destruct (position_format_total p p' p0 Hp) as (s & ->).
    cbn [bind strings_result]. eauto.
  - apply bind_Ok_inv in Hp as (p' & Hp & Hr). apply Ok_inj in Hr. subst r'.
    destruct v; cbn [kind cell_ok] in Hv; try contradiction.
    cbv beta iota delta [format]. unfold InventoryRenderer.format.
    destruct (positions_format_total p p' inv Hp) as (l & ->).
    destruct (position_empty_set p p' Hp) as (e & He).
    cbn [bind]. unfold strings_result. rewrite He.
    destruct l as [|s1 [|s2 l]]; eauto.
Qed.

Lemma format_row_ok rs rs' : forall row,
  Forall2 (fun r r' => prepare r = Ok r') rs rs' ->
  Forall2 cell_ok (map kind rs') row ->
  exists exp_row, format_row rs' row = Ok exp_row.
Proof.
  intros row Hp. revert row.
  induction Hp as [|r r' rs rs' Hr _ IH]; intros row H; cbn [map] in H.
  - exists []. reflexivity.
  - inversion H as [|? v ? row' Hv Hrow]; subst.
    destruct (format_ok r r' v Hr Hv) as (c & Hc).
    destruct (IH row' Hrow) as (exp_row & He).
    exists (c :: exp_row). cbn [format_row]. now rewrite Hc, He.
Qed.

Lemma format_rows_ok rs rs' rows :
  Forall2 (fun r r' => prepare r = Ok r') rs rs' ->
  Forall (Forall2 cell_ok (map kind rs')) rows ->
  exists str_rows, format_rows rs' rows = Ok str_rows.
Proof.
  intros Hp H. induction H as [|row rows Hrow _ (str_rows & IH)].
  - exists []. reflexivity.
  - destruct (format_row_ok rs rs' row Hp Hrow) as (exp_row & He).
    eexists. cbn [format_rows]. rewrite He, IH. reflexivity.
Qed.

Lemma map_kind_new (result_types : list (str * dtype)) :
  map kind (map (fun nt => RENDERERS (snd nt)) result_types) = map snd result_types.
Proof.
  induction result_types as [|[name dt] types IH]; [reflexivity|].
  cbn [map snd]. rewrite IH. now destruct dt.
Qed.

(** X11. [render_text] returns normally on every result set in which each
    row has one cell for every column, of the type of the column, with
    [None] allowed in string, decimal and date columns. *)
Theorem render_total
        (result_types : list (str * dtype)) (result_rows : list (list value))
        (f : file) :
  Forall (row_ok result_types) result_rows ->
  exists f', render_text result_types result_rows f = (Ok tt, f').
Proof.
  intros Hrows. unfold row_ok in Hrows.
  set (rs0 := map (fun nt => RENDERERS (snd nt)) result_types).
  assert (Hk0 : map kind rs0 = map snd result_types) by apply map_kind_new.
  rewrite <- Hk0 in Hrows.
  destruct (update_rows_ok result_rows rs0 Hrows) as (rs1 & Hu & Hk1).
  destruct (prepare_all_ok rs1) as (rs & Hp & Hk).
  assert (Hg : get_renderers result_types result_rows = Ok rs).
  { unfold get_renderers. fold rs0. rewrite Hu. cbn [bind]. exact Hp. }
  assert (Hrows' : Forall (Forall2 cell_ok (map kind rs)) result_rows)
    by (now rewrite Hk, Hk1).
  destruct (format_rows_ok rs1 rs result_rows (prepare_all_Forall2 _ _ Hp) Hrows')
    as (str_rows & Hf).
  destruct (get_renderers_ready _ _ _ Hg) as [Hlen Hready].
  destruct (format_rows_spec _ _ _ Hready Hf) as (exp_rows & H2 & ->).
  assert (Hassert : match result_rows with
                    | row0 :: _ =>
                        if Nat.eqb (length result_types) (length row0)
                        then Ok tt else Raise AssertionError
                    | [] => Ok tt
                    end = Ok tt).
  { destruct result_rows as [|row0 rest]; [reflexivity|].
    inversion Hrows as [|? ? Hrow0 _]; subst.
    apply Forall2_length in Hrow0. rewrite length_map in Hrow0.
    unfold rs0 in Hrow0. rewrite length_map in Hrow0.
    rewrite Hrow0, Nat.eqb_refl. reflexivity. }
  unfold render_text, render_setup. rewrite Hassert. cbn [bind].
  rewrite Hg. cbn [bind]. rewrite Hf. cbn [bind].
  rewrite (field_formats_spec _ (get_renderers_has_width _ _ _ Hg)). cbn [bind].
  rewrite line_body_spec. cbn [bind].
  rewrite write_rows_ok; [eauto|].
  apply Forall_forall. intros fields Hin.
  apply in_flat_map in Hin as (exp_row & Hin & Hfields).
  pose proof (physical_rows_length exp_row) as Hpl.
  rewrite Forall_forall in Hpl. rewrite (Hpl _ Hfields), length_map.
  clear - Hin H2 Hrows' Hlen.
  induction H2 as [|row exp_row' rows exp_rows (_ & _ & Hl) _ IH].
  - destruct Hin.
  - inversion Hrows' as [|? ? Hrow Hrest]; subst.
    destruct Hin as [<-|Hin]; [|auto].
    apply Forall2_length in Hrow. rewrite length_map in Hrow. lia.
Qed.

Lemma render_total_witness :
  let result_types := [(lit "account", t_str); (lit "balance", t_Inventory)] in
  let result_rows := [[VNone; VInventory []]] in
  Forall (row_ok result_types) result_rows /\
  exists f', render_text result_types result_rows [] = (Ok tt, f').
Proof.
  cbv zeta.
  match goal with
  | |- ?P /\ _ =>
      assert (H : P) by (repeat constructor)
  end.
  split; [exact H|]. exact (render_total _ _ [] H).
Defined.

End RenderMore.

Section RenderShape.

Lemma fields_of_row_fit rs rows exp_rows :
  Forall2 (formats_to rs) rows exp_rows ->
  Forall (fun fields =>
            Forall (fun wf => length (snd wf) <= fst wf)%nat
                   (combine (map col_width rs) fields))
         (flat_map physical_rows exp_rows).
Proof.
  intros H2. apply Forall_forall. intros fields Hin.
  apply in_flat_map in Hin as (exp_row & Hin & Hfields).
  assert (Hz : zip_all fits rs exp_row).
  { clear - H2 Hin. induction H2 as [|row e rows exp_rows (_ & Hz & _) _ IH].
    - destruct Hin.
    - destruct Hin as [<-|Hin]; auto. }
  unfold physical_rows in Hfields.
  apply in_map_iff in Hfields as (k & <- & _). now apply fields_fit.
Qed.

(** X12. The table of a call that returns is a rectangle: every string the
    call has written, border or row, has the same length. *)
Theorem table_rectangular
        (result_types : list (str * dtype)) (result_rows : list (list value))
        (f f' : file) :
  render_text result_types result_rows f = (Ok tt, f') ->
  exists renderers added,
    get_renderers result_types result_rows = Ok renderers /\
    f' = f ++ added /\
    (3 <= length added)%nat /\
    Forall (fun line =>
              length line = length (top_line (body_of (map col_width renderers))))
           added.
Proof.
  intros H. unfold render_text in H.
  destruct (render_setup result_types result_rows) as [[[str_rows formatter] body]|e0] eqn:Hs;
    [|discriminate H].
  destruct (render_setup_inv _ _ _ _ _ Hs)
    as (renderers & exp_rows & Hg & Hlen & H2 & -> & -> & ->).
  destruct (write_rows _ _ _) as [[u|e] f1] eqn:Hw; [|discriminate H].
  pose proof (write_rows_inv _ _ _ _ _ Hw) as Hlong.
  rewrite (write_rows_ok _ _ _ Hlong) in Hw.
  assert (Hf1 : f1 = write (write f (top_line (body_of (map col_width renderers))))
                           (middle_line (body_of (map col_width renderers)))
                     ++ map (text_line (map col_width renderers))
                            (flat_map physical_rows exp_rows))
    by congruence.
  assert (Hf' : f' = write f1 (bottom_line (body_of (map col_width renderers))))
    by congruence.
  subst f1 f'. clear Hw H.
  set (ws := map col_width renderers) in *.
  exists renderers,
    ([top_line (body_of ws); middle_line (body_of ws)]
       ++ map (text_line ws) (flat_map physical_rows exp_rows)
       ++ [bottom_line (body_of ws)]).
  split; [exact Hg|]. split; [unfold write; now rewrite <- !app_assoc|].
  split; [rewrite !length_app; cbn [length]; lia|].
  apply Forall_app. split.
  - constructor; [reflexivity|]. constructor; [|constructor].
    unfold middle_line, top_line. now rewrite !length_app.
  - apply Forall_app. split.
    + apply Forall_forall. intros line Hin.
      apply in_map_iff in Hin as (fields & <- & Hin).
      rewrite Forall_forall in Hlong.
      apply length_text_line; [now apply Hlong|].
      pose proof (fields_of_row_fit _ _ _ H2) as Hfit.
      rewrite Forall_forall in Hfit. now apply Hfit.
    + constructor; [|constructor].
      unfold bottom_line, top_line. now rewrite !length_app.
Qed.

Lemma table_rectangular_witness :
  let result_types := [(lit "account", t_str); (lit "balance", t_Decimal)] in
  let result_rows :=
    [[VStr (lit "Cash"); VDecimal (mkDecimal false [D1; D0; D5] (-1))];
     [VNone; VDecimal (mkDecimal true [D2; D0; D0; D2; D5] (-2))]] in
  exists f',
    render_text result_types result_rows [] = (Ok tt, f') /\
    exists renderers added,
      get_renderers result_types result_rows = Ok renderers /\
      f' = [] ++ added /\
      (3 <= length added)%nat /\
      Forall (fun line =>
                length line = length (top_line (body_of (map col_width renderers))))
             added.
Proof.
  cbv zeta.
  match goal with
  | |- exists f', render_text ?t ?r [] = _ /\ _ =>
      destruct (render_text t r []) as [[[]|e] f'] eqn:E;
        [|vm_compute in E; discriminate E]
  end.
  exists f'. split; [reflexivity|]. exact (table_rectangular _ _ _ _ E).
Defined.

Lemma update_row_firstn rs : forall row,
  update_row rs (firstn (length rs) row) = update_row rs row.
Proof.
  induction rs as [|r rs IH]; intros row; [now destruct row|].
  destruct row as [|v row]; [reflexivity|].
  cbn [length firstn update_row]. now rewrite IH.
Qed.

Lemma update_row_length rs : forall row rs',
  update_row rs row = Ok rs' -> length rs' = length rs.
Proof.
  induction rs as [|r rs IH]; intros row rs' H.
  - cbn in H. apply Ok_inj in H. now subst.
  - destruct row as [|v row]; cbn [update_row] in H.
    + apply Ok_inj in H. now subst.
    + apply bind_Ok_inv in H as (r1 & _ & H).
      apply bind_Ok_inv in H as (rs1 & Hrs1 & H).
      apply Ok_inj in H. subst rs'. cbn [length]. f_equal. eauto.
Qed.

Lemma update_rows_firstn rows : forall rs,
  update_rows rs (map (firstn (length rs)) rows) = update_rows rs rows.
Proof.
  induction rows as [|row rows IH]; intros rs; [reflexivity|].
  cbn [map update_rows]. rewrite update_row_firstn.
  destruct (update_row rs row) as [rs1|e] eqn:E; [|reflexivity].
  cbn [bind]. rewrite <- (update_row_length _ _ _ E). apply IH.
Qed.

Lemma format_row_firstn rs : forall row,
  format_row rs (firstn (length rs) row) = format_row rs row.
Proof.
  induction rs as [|r rs IH]; intros row; [now destruct row|].
  destruct row as [|v row]; [reflexivity|].
  cbn [length firstn format_row]. now rewrite IH.
Qed.

Lemma format_rows_firstn rs rows :
  format_rows rs (map (firstn (length rs)) rows) = format_rows rs rows.
Proof.
  induction rows as [|row rows IH]; [reflexivity|].
  cbn [map format_rows]. now rewrite format_row_firstn, IH.
Qed.

(** X13. The cells of a row past the last column are never looked at: when
    the first row is not longer than the list of columns, [render_text] does
    the same, result and file, on the rows cut to the number of columns. *)
Theorem extra_cells_ignored
        (result_types : list (str * dtype)) (result_rows : list (list value))
        (f : file) :
  (length (hd [] result_rows) <= length result_types)%nat ->
  render_text result_types (map (firstn (length result_types)) result_rows) f
  = render_text result_types result_rows f.
Proof.
  intros Hhd.
  assert (Hs : render_setup result_types
                 (map (firstn (length result_types)) result_rows)
               = render_setup result_types result_rows).
  { unfold render_setup.
    assert (Ha : match map (firstn (length result_types)) result_rows with
                 | row0 :: _ =>
                     if Nat.eqb (length result_types) (length row0)
                     then Ok tt else Raise AssertionError
                 | [] => Ok tt
                 end
                 = match result_rows with
                   | row0 :: _ =>
                       if Nat.eqb (length result_types) (length row0)
                       then Ok tt else Raise AssertionError
                   | [] => Ok tt
                   end).
    { destruct result_rows as [|row0 rest]; [reflexivity|].
      cbn [map hd] in *. now rewrite firstn_all2 by exact Hhd. }
    rewrite Ha.
    assert (Hg : get_renderers result_types
                   (map (firstn (length result_types)) result_rows)
                 = get_renderers result_types result_rows).
    { unfold get_renderers.
      rewrite <- (length_map (fun nt => RENDERERS (snd nt)) result_types).
      now rewrite update_rows_firstn. }
    rewrite Hg.
    destruct (get_renderers result_types result_rows) as [renderers|e] eqn:E;
      [|reflexivity].
    destruct (get_renderers_ready _ _ _ E) as [Hlen _].
    cbn [bind]. rewrite <- Hlen, format_rows_firstn. reflexivity. }
  unfold render_text. now rewrite Hs.
Qed.

Lemma extra_cells_ignored_witness :
  let result_types := [(lit "account", t_str)] in
  let result_rows := [[VStr (lit "a")];
                      [VStr (lit "b"); VDecimal (mkDecimal false [D1] 0)]] in
  (length (hd [] result_rows) <= length result_types)%nat /\
  render_text result_types [[VStr (lit "a")]; [VStr (lit "b")]] []
  = render_text result_types result_rows [].
Proof.
  cbv zeta.
  match goal with
  | |- ?P /\ _ => assert (H : P) by (cbn; lia)
  end.
  split; [exact H|].
  exact (extra_cells_ignored [(lit "account", t_str)]
           [[VStr (lit "a")]; [VStr (lit "b"); VDecimal (mkDecimal false [D1] 0)]]
           [] H).
Defined.

End RenderShape.

Section RendererClasses.

(** Unfolds the dispatch of [update] or [format] in a hypothesis, on a
    renderer and a value that are known by their constructors. *)
Ltac unfold_dispatch H :=
  match type of H with
  | update ?r ?v = ?x =>
      let e := eval cbv beta iota delta [update] in (update r v) in
      change (e = x) in H
  | format ?r ?v = ?x =>
      let e := eval cbv beta iota delta [format] in (format r v) in
      change (e = x) in H
  end.

Lemma update_kind r v r' : update r v = Ok r' -> kind r' = kind r.
Proof.
  intros H. destruct r, v; unfold_dispatch H; try discriminate H;
    apply Ok_inj in H; subst r'; reflexivity.
Qed.

Lemma update_row_kind rs : forall row rs',
  update_row rs row = Ok rs' -> map kind rs' = map kind rs.
Proof.
  induction rs as [|r rs IH]; intros row rs' H.
  - cbn in H. apply Ok_inj in H. now subst.
  - destruct row as [|v row]; cbn [update_row] in H.
    + apply Ok_inj in H. now subst.
    + apply bind_Ok_inv in H as (r1 & Hr1 & H).
      apply bind_Ok_inv in H as (rs1 & Hrs1 & H).
      apply Ok_inj in H. subst rs'. cbn [map].
      now rewrite (update_kind _ _ _ Hr1), (IH _ _ Hrs1).
Qed.

Lemma update_rows_kind rows : forall rs rs',
  update_rows rs rows = Ok rs' -> map kind rs' = map kind rs.
Proof.
  induction rows as [|row rows IH]; intros rs rs' H; cbn [update_rows] in H.
  - apply Ok_inj in H. now subst.
  - apply bind_Ok_inv in H as (rs1 & Hrs1 & H).
    now rewrite (IH _ _ H), (update_row_kind _ _ _ Hrs1).
Qed.

Lemma prepare_kind r r' : prepare r = Ok r' -> kind r' = kind r.
Proof.
  intros H. destruct (prepare_ok r) as (r2 & H2 & Hk).
  rewrite H in H2. apply Ok_inj in H2. now subst.
Qed.

Lemma prepare_all_kind rs rs' :
  prepare_all rs = Ok rs' -> map kind rs' = map kind rs.
Proof.
  intros H. apply prepare_all_Forall2 in H.
  induction H as [|r r' rs rs' Hr _ IH]; [reflexivity|].
  cbn [map]. now rewrite (prepare_kind _ _ Hr), IH.
Qed.

(** X14. When [get_renderers] returns, it returns one renderer for every
    column, of the class registered for the type of the column, whatever
    the rows hold. *)
Theorem get_renderers_classes
        (result_types : list (str * dtype)) (result_rows : list (list value))
        (renderers : list renderer) :
  get_renderers result_types result_rows = Ok renderers ->
  map kind renderers = map snd result_types.
Proof.
  unfold get_renderers. intros H.
  apply bind_Ok_inv in H as (rs & Hu & Hp).
  now rewrite (prepare_all_kind _ _ Hp), (update_rows_kind _ _ _ Hu), map_kind_new.
Qed.

Lemma get_renderers_classes_witness :
  get_renderers example_types [example_row] = Ok example_renderers /\
  map kind example_renderers = map snd example_types.
Proof.
  assert (H : get_renderers example_types [example_row] = Ok example_renderers)
    by (vm_compute; reflexivity).
  split; [exact H|]. exact (get_renderers_classes _ _ _ H).
Defined.

Lemma format_line r v c :
  kind r <> t_Inventory -> format r v = Ok c -> exists s, c = Line s.
Proof.
  intros Hk H. destruct r as [s|d|d|p|p]; [| | | |now contradiction Hk];
    destruct v; unfold_dispatch H; try discriminate H.
  - apply bind_Ok_inv in H as (x & _ & H). apply Ok_inj in H. eauto.
  - apply bind_Ok_inv in H as (x & _ & H). apply Ok_inj in H. eauto.
  - apply bind_Ok_inv in H as (x & _ & H). apply Ok_inj in H. eauto.
  - apply bind_Ok_inv in H as (x & _ & H). apply Ok_inj in H. eauto.
  - apply Ok_inj in H. eauto.
  - apply Ok_inj in H. eauto.
  - unfold PositionRenderer.format in H.
    apply bind_Ok_inv in H as (x & _ & H). cbn [strings_result] in H.
    apply Ok_inj in H. eauto.
Qed.

Lemma format_row_lines rs : forall row exp_row,
  Forall (fun r => kind r <> t_Inventory) rs ->
  format_row rs row = Ok exp_row ->
  Forall (fun c => exists s, c = Line s) exp_row.
Proof.
  induction rs as [|r rs IH]; intros row exp_row Hk H.
  - cbn in H. apply Ok_inj in H. subst. constructor.
  - destruct row as [|v row]; cbn [format_row] in H.
    + apply Ok_inj in H. subst. constructor.
    + inversion Hk; subst.
      apply bind_Ok_inv in H as (c & Hc & H).
      apply bind_Ok_inv in H as (rest & Hrest & H).
      apply Ok_inj in H. subst exp_row.
      constructor; [eapply format_line; eauto|eauto].
Qed.

Lemma physical_rows_single exp_row :
  Forall (fun c => exists s, c = Line s) exp_row ->
  length (physical_rows exp_row) = 1%nat.
Proof.
  intros H. unfold physical_rows. rewrite length_map, length_seq.
  assert (Hmax : (list_max (map line_count exp_row) <= 1)%nat).
  { induction H as [|c exp_row (s & ->) _ IH]; [cbn; lia|].
    cbn [map list_max fold_right]. fold (list_max (map line_count exp_row)).
    unfold line_count at 1. cbn [cell_lines wrap length]. lia. }
  lia.
Qed.

(** X15. Without an inventory column a call that returns has written one
    line for every row, between the two border lines at the top and the one
    at the bottom: only an inventory is formatted to more than one line. *)
Theorem one_line_per_row
        (result_types : list (str * dtype)) (result_rows : list (list value))
        (f f' : file) :
  ~ In t_Inventory (map snd result_types) ->
  render_text result_types result_rows f = (Ok tt, f') ->
  length f' = (length f + 3 + length result_rows)%nat.
Proof.
  intros Hno H. unfold render_text in H.
  destruct (render_setup result_types result_rows) as [[[str_rows formatter] body]|e0] eqn:Hs;
    [|discriminate H].
  destruct (render_setup_inv _ _ _ _ _ Hs)
    as (renderers & exp_rows & Hg & Hlen & H2 & -> & -> & ->).
  destruct (write_rows _ _ _) as [[u|e] f1] eqn:Hw; [|discriminate H].
  pose proof (write_rows_inv _ _ _ _ _ Hw) as Hlong.
  rewrite (write_rows_ok _ _ _ Hlong) in Hw.
  assert (Hf1 : length f1 = (length f + 2 + length (flat_map physical_rows exp_rows))%nat).
  { assert (E1 : f1 = write (write f (top_line (body_of (map col_width renderers))))
                            (middle_line (body_of (map col_width renderers)))
                      ++ map (text_line (map col_width renderers))
                             (flat_map physical_rows exp_rows)) by congruence.
    rewrite E1. unfold write.
    rewrite !length_app, length_map. cbn [length]. lia. }
  assert (Hf' : length f' = S (length f1)).
  { assert (E2 : f' = write f1 (bottom_line (body_of (map col_width renderers))))
      by congruence.
    rewrite E2. unfold write. rewrite length_app. cbn [length]. lia. }
  rewrite Hf', Hf1.
  assert (Hk : Forall (fun r => kind r <> t_Inventory) renderers).
  { apply Forall_forall. intros r Hr Hkr. apply Hno.
    rewrite <- (get_renderers_classes _ _ _ Hg), <- Hkr. now apply in_map. }
  assert (Hcount : length (flat_map physical_rows exp_rows) = length result_rows).
  { clear - H2 Hk. induction H2 as [|row exp_row rows exp_rows (Hf & _) _ IH];
      [reflexivity|].
    cbn [flat_map length]. rewrite length_app, IH.
    rewrite (physical_rows_single exp_row); [reflexivity|].
    eapply format_row_lines; eauto. }
  lia.
Qed.

Lemma one_line_per_row_witness :
  let result_types := [(lit "account", t_str); (lit "units", t_Position)] in
  let result_rows :=
    [[VStr (lit "Cash");
      VPosition (mkPosition (mkLot (lit "USD") None) (mkDecimal false [D5] 0))];
     [VNone;
      VPosition (mkPosition (mkLot (lit "CAD") None) (mkDecimal true [D1; D2] 0))]] in
  exists f',
    ~ In t_Inventory (map snd result_types) /\
    render_text result_types result_rows [lit "before"] = (Ok tt, f') /\
    length f' = (length [lit "before"] + 3 + length result_rows)%nat.
Proof.
  cbv zeta.
  match goal with
  | |- exists f', ~ In _ (map snd ?t) /\ render_text _ ?r ?f = _ /\ _ =>
      destruct (render_text t r f) as [[[]|e] f'] eqn:E;
        [|vm_compute in E; discriminate E];
      assert (Hno : ~ In t_Inventory (map snd t))
        by (cbn; intros [H|[H|[]]]; discriminate H)
  end.
  exists f'. split; [exact Hno|]. split; [reflexivity|].
  exact (one_line_per_row _ _ _ _ Hno E).
Defined.

End RendererClasses.
